(** * File-backed repository and session authentication (laba5_OOP.py)

    A shallow embedding of the JSON repository ([JsonDataRepository],
    [UserRepository]) and of the session based authentication service
    ([FileAuthService]) of [src/laba5_OOP.py], and of its input
    validation ([UserValidator]), together with the properties of its
    identity repair, CRUD operations and sign-in state machine.

    Modelling conventions.
    - A JSON scalar is a [value]: [None], an integer or a string.  JSON
      floats, booleans and nested containers are not represented.
    - A Python [dict] with string keys is a [gmap string value]; dict
      equality is map equality, as in Python.
    - A Python exception is an [exn]; code that may raise returns an
      [outcome].
    - The file system is a [world]: the repository file, the session
      file and the console.  Opening an existing path for reading or
      writing is assumed to succeed (no permission or capacity error).
    - Methods that touch files run in the monad [M] (state and
      exceptions).  A method that assigns to an attribute of an argument
      ([item.id = ...]) returns the argument as it is after the call. *)

From stdpp Require Import gmap strings list fin_maps sorting.
From Stdlib Require Import ZArith Lia Ascii.

Local Open Scope string_scope.
Local Open Scope Z_scope.

(** ** Python values *)

Inductive value :=
| VNone
| VInt (n : Z)
| VStr (s : string).

#[global] Instance value_eq_dec : EqDecision value.
Proof. solve_decision. Defined.

Definition value_to_sum (v : value) : option (Z + string) :=
  match v with
  | VNone => None
  | VInt n => Some (inl n)
  | VStr s => Some (inr s)
  end.

Definition value_of_sum (o : option (Z + string)) : value :=
  match o with
  | None => VNone
  | Some (inl n) => VInt n
  | Some (inr s) => VStr s
  end.

#[global] Instance value_countable : Countable value.
Proof.
  apply (inj_countable' value_to_sum value_of_sum).
  intros []; reflexivity.
Defined.

(** A JSON object / keyword dictionary. *)
Abbreviation record := (gmap string value).

(** [d.get(key)]: the value, or [None] when the key is absent. *)
Definition py_get (d : record) (key : string) : value :=
  default VNone (d !! key).

(** ** Exceptions *)

Inductive exn :=
| TypeError
| ValueError
| UnpicklingError.

Inductive outcome (A : Type) :=
| Returned (a : A)
| Raised (e : exn).
Arguments Returned {A} a.
Arguments Raised {A} e.

#[global] Instance outcome_ret : MRet outcome := λ A a, Returned a.
#[global] Instance outcome_bind : MBind outcome := λ A B f m,
  match m with
  | Returned a => f a
  | Raised e => Raised e
  end.

(** Truth value of an object in a condition ([if user_id:]). *)
Definition truthy (v : value) : bool :=
  match v with
  | VNone => false
  | VInt n => negb (n =? 0)
  | VStr s => negb (String.eqb s "")
  end.

(** [a < b]: defined between two integers and between two strings
    (strings are their UTF-8 bytes, whose order is that of the code
    points Python compares). *)
Definition py_lt (a b : value) : outcome bool :=
  match a, b with
  | VInt m, VInt n => Returned (m <? n)
  | VStr s, VStr t => Returned (String.ltb s t)
  | _, _ => Raised TypeError
  end.

(** [a <= n] for an integer literal [n]. *)
Definition py_le_int (a : value) (n : Z) : outcome bool :=
  match a with
  | VInt m => Returned (m <=? n)
  | _ => Raised TypeError
  end.

(** [a + 1]. *)
Definition py_succ (a : value) : outcome value :=
  match a with
  | VInt m => Returned (VInt (m + 1))
  | _ => Raised TypeError
  end.

(** [max(xs, default=d)] over integers. *)
Definition max_default (d : Z) (xs : list Z) : Z :=
  match xs with
  | [] => d
  | x :: xs' => foldl Z.max x xs'
  end.

(** [max(vs, default=0)] over arbitrary values: the running maximum is
    replaced when a later element compares greater. *)
Definition py_max_step (best : value) (v : value) : outcome value :=
  b ← py_lt best v; mret (if b : bool then v else best).

Fixpoint py_max_from (best : value) (vs : list value) : outcome value :=
  match vs with
  | [] => Returned best
  | v :: vs' => best' ← py_max_step best v; py_max_from best' vs'
  end.

Definition py_max (vs : list value) : outcome value :=
  match vs with
  | [] => Returned (VInt 0)
  | v :: vs' => py_max_from v vs'
  end.

(** ** Identity repair: [JsonDataRepository._fix_duplicate_ids] *)

(** The ids that pass [id is not None and isinstance(id, (int, float))]. *)
Definition valid_ids (data : list record) : list Z :=
  omap (λ item, match py_get item "id" with
                | VInt n => Some n
                | _ => None
                end) data.

(** The body of [for item in data], returning the records appended to
    [fixed_data] from this point on. *)
Fixpoint fix_loop (data : list record) (seen_ids : gset value) (next_id : Z)
  : outcome (list record) :=
  match data with
  | [] => Returned []
  | item :: rest =>
      let item_id := py_get item "id" in
      missing ← (if decide (item_id = VNone) then Returned true
                 else py_le_int item_id 0);
      if (missing : bool) then
        fixed ← fix_loop rest seen_ids (next_id + 1);
        mret (<["id" := VInt next_id]> item :: fixed)
      else if decide (item_id ∈ seen_ids) then
        fixed ← fix_loop rest seen_ids (next_id + 1);
        mret (<["id" := VInt next_id]> item :: fixed)
      else
        fixed ← fix_loop rest ({[item_id]} ∪ seen_ids) next_id;
        mret (item :: fixed)
  end.

Definition _fix_duplicate_ids (data : list record) : outcome (list record) :=
  match data with
  | [] => Returned data
  | _ => fix_loop data ∅ (max_default 0 (valid_ids data) + 1)
  end.

(** ** Files, console and the monad of file operations *)

(** What is found at a path: nothing, bytes that do not decode, or a
    decoded content. *)
Inductive file (A : Type) :=
| Absent
| Corrupt
| Holds (content : A).
Arguments Absent {A}.
Arguments Corrupt {A}.
Arguments Holds {A} content.

(** The lines the program prints, by the statement that prints them. *)
Inductive message :=
| MsgFileFixed
| MsgIdExists (old_id next_id : value)
| MsgRecordUpdated (id : value)
| MsgRecordNotFound (id : value)
| MsgUseAdd
| MsgUserUpdated (id name : value)
| MsgUpdateByLogin (login id old_id : value)
| MsgUserNotFound (id login : value)
| MsgAutoSignedIn (name : value)
| MsgSessionLoadError (e : exn)
| MsgLoginNotFound (login : string)
| MsgWrongPassword
| MsgWelcome (name : value)
| MsgGoodbye (name : value).

Record world := World {
  users_file : file (list record);
  session_file : file record;
  console : list message
}.

Definition M (A : Type) : Type := world → outcome A * world.

#[global] Instance M_ret : MRet M := λ A a w, (Returned a, w).
#[global] Instance M_bind : MBind M := λ A B f m w,
  match m w with
  | (Returned a, w') => f a w'
  | (Raised e, w') => (Raised e, w')
  end.

Definition lift {A} (o : outcome A) : M A := λ w, (o, w).
Definition raise {A} (e : exn) : M A := λ w, (Raised e, w).

(** [try: body except Exception as e: handler(e)] *)
Definition try_except {A} (body : M A) (handler : exn → M A) : M A := λ w,
  match body w with
  | (Returned a, w') => (Returned a, w')
  | (Raised e, w') => handler e w'
  end.

Definition print (msg : message) : M unit := λ w,
  (Returned tt,
   {| users_file := users_file w; session_file := session_file w;
      console := console w ++ [msg] |}).

Definition get_users_file : M (file (list record)) := λ w,
  (Returned (users_file w), w).
Definition put_users_file (f : file (list record)) : M unit := λ w,
  (Returned tt,
   {| users_file := f; session_file := session_file w;
      console := console w |}).
Definition get_session_file : M (file record) := λ w,
  (Returned (session_file w), w).
Definition put_session_file (f : file record) : M unit := λ w,
  (Returned tt,
   {| users_file := users_file w; session_file := f;
      console := console w |}).

(** ** Entities *)

(** What the repository needs of the class of its entities: the
    constructor called with the entries of a record as keyword
    arguments ([data_class]),
    the public attributes of an instance ([_object_to_dict], which keeps
    the entries of [obj.__dict__] whose name has no leading underscore),
    and the attribute [id], read and assigned. *)
Class Entity (T : Type) := {
  data_class : record → outcome T;
  _object_to_dict : T → record;
  get_id : T → value;
  set_id : value → T → T
}.

(** The attribute [id] is public, assigning it changes nothing else, and
    the constructor stores its keyword arguments as attributes. *)
Class EntityLaws (T : Type) `{Entity T} := {
  dict_id : ∀ x : T, _object_to_dict x !! "id" = Some (get_id x);
  dict_set_id : ∀ v (x : T),
    _object_to_dict (set_id v x) = <["id" := v]> (_object_to_dict x);
  class_of_dict : ∀ x : T, data_class (_object_to_dict x) = Returned x;
  class_id : ∀ item (x : T),
    data_class item = Returned x → py_get item "id" = get_id x
}.

(** ** [sorted(items, key=...)] *)

(** A stable sort that compares keys with [<] only.  Stable sorts differ
    in the pairs they compare, not in the list they return nor in
    whether a comparison raises: with two or more items, one does
    exactly when the keys are not all integers or all strings. *)
Section Sorted.
Context {T : Type} (key : T → value).

Fixpoint insert_sorted (x : T) (l : list T) : outcome (list T) :=
  match l with
  | [] => Returned [x]
  | y :: l' =>
      b ← py_lt (key y) (key x);
      if (b : bool) then r ← insert_sorted x l'; mret (y :: r)
      else mret (x :: y :: l')
  end.

Fixpoint sorted (l : list T) : outcome (list T) :=
  match l with
  | [] => Returned []
  | x :: l' => s ← sorted l'; insert_sorted x s
  end.
End Sorted.

(** [[f(x) for x in l]] where [f] may raise. *)
Fixpoint map_outcome {A B} (f : A → outcome B) (l : list A) : outcome (list B) :=
  match l with
  | [] => Returned []
  | x :: l' => y ← f x; ys ← map_outcome f l'; mret (y :: ys)
  end.

(** ** [JsonDataRepository] *)

Record JsonDataRepository (T : Type) := {
  auto_sort : bool;
  sort_key : option (T → value)
}.
Arguments auto_sort {T} _.
Arguments sort_key {T} _.

Section Repository.
Context {T : Type} `{Entity T}.
Variable self : JsonDataRepository T.

Definition _write_data (data : list record) : M unit :=
  data' ← match sort_key self with
          | Some key =>
              items ← lift (map_outcome data_class data);
              sorted_items ← lift (sorted key items);
              mret (_object_to_dict <$> sorted_items)
          | None => mret data
          end;
  put_users_file (Holds data').

Definition _read_raw_data : M (list record) :=
  f ← get_users_file;
  match f with
  | Holds data => mret data
  | Absent | Corrupt => mret []
  end.

Definition _read_data : M (list record) := _read_raw_data.

Definition _ensure_file_exists : M unit :=
  f ← get_users_file;
  match f with
  | Absent => put_users_file (Holds [])
  | _ => mret tt
  end.

Definition _validate_and_fix_data_on_load : M unit :=
  data ← _read_raw_data;
  fixed_data ← lift (_fix_duplicate_ids data);
  if decide (fixed_data ≠ data) then
    _write_data fixed_data;; print MsgFileFixed
  else mret tt.

Definition get_all : M (list T) :=
  data ← _read_data;
  lift (map_outcome data_class data).

Definition get_by_id (id : value) : M (option T) :=
  data ← _read_data;
  match list_find (λ item, py_get item "id" = id) data with
  | Some (_, item) => x ← lift (data_class item); mret (Some x)
  | None => mret None
  end.

Definition existing_ids (data : list record) : gset value :=
  list_to_set ((λ d, py_get d "id") <$> data).

Definition add (item : T) : M T :=
  data ← _read_data;
  item ← (if decide (get_id item ∈ existing_ids data) then
            m ← lift (py_max (elements (existing_ids data)));
            next_id ← lift (py_succ m);
            print (MsgIdExists (get_id item) next_id);;
            mret (set_id next_id item)
          else mret item);
  _write_data (data ++ [_object_to_dict item]);;
  mret item.

Definition update (item : T) : M unit :=
  data ← _read_data;
  match list_find (λ record, py_get record "id" = get_id item) data with
  | Some (i, _) =>
      print (MsgRecordUpdated (get_id item));;
      _write_data (<[i := _object_to_dict item]> data)
  | None =>
      print (MsgRecordNotFound (get_id item));;
      print MsgUseAdd
  end.

Definition delete (item : T) : M unit :=
  data ← _read_data;
  let new_data := filter (λ record, py_get record "id" ≠ get_id item) data in
  if decide (length new_data = length data) then raise ValueError
  else _write_data new_data.
End Repository.

(** [JsonDataRepository.__init__] *)
Definition JsonDataRepository_init {T} `{Entity T}
    (auto_sort : bool) (sort_key : option (T → value))
  : M (JsonDataRepository T) :=
  let self := {| auto_sort := auto_sort; sort_key := sort_key |} in
  _ensure_file_exists;;
  _validate_and_fix_data_on_load self;;
  mret self.

(** ** [User] *)

(** The dataclass.  Python does not check the annotations, so every
    field holds whatever value the record in the file has. *)
Record User := {
  id : value;
  name : value;
  login : value;
  password : value;
  email : value;
  address : value
}.

#[global] Instance User_eq_dec : EqDecision User.
Proof. solve_decision. Defined.

Definition User_fields : gset string :=
  {[ "id"; "name"; "login"; "password"; "email"; "address" ]}.

(** [User] called with the entries of [item] as keyword arguments: a
    [TypeError] for an unexpected keyword or a missing required one;
    [email] and [address] default to [None]. *)
Definition User_init (item : record) : outcome User :=
  if decide (dom item ⊆ User_fields) then
    match item !! "id", item !! "name", item !! "login", item !! "password" with
    | Some i, Some n, Some l, Some p =>
        Returned {| id := i; name := n; login := l; password := p;
                    email := py_get item "email";
                    address := py_get item "address" |}
    | _, _, _, _ => Raised TypeError
    end
  else Raised TypeError.

Definition User_dict (u : User) : record :=
  {[ "id" := id u; "name" := name u; "login" := login u;
     "password" := password u; "email" := email u; "address" := address u ]}.

Definition User_set_id (v : value) (u : User) : User :=
  {| id := v; name := name u; login := login u; password := password u;
     email := email u; address := address u |}.

#[global] Instance User_entity : Entity User := {
  data_class := User_init;
  _object_to_dict := User_dict;
  get_id := id;
  set_id := User_set_id
}.

(** ** [UserRepository] *)

(** [get_by_id], [add] and [delete] are inherited.  The override of
    [get_all], which sorts the list the inherited method returns, is
    [User_get_all] further down. *)

Definition UserRepository := JsonDataRepository User.

Definition UserRepository_init : M UserRepository :=
  JsonDataRepository_init true (Some name).

Definition get_by_login (self : UserRepository) (login : value)
  : M (option User) :=
  data ← _read_data;
  match list_find (λ item, py_get item "login" = login) data with
  | Some (_, item) => u ← lift (User_init item); mret (Some u)
  | None => mret None
  end.

(** [UserRepository.update], which overrides [JsonDataRepository.update]. *)
Definition User_update (self : UserRepository) (item : User) : M User :=
  data ← _read_data;
  match list_find (λ record, py_get record "id" = id item) data with
  | Some (i, _) =>
      print (MsgUserUpdated (id item) (name item));;
      _write_data self (<[i := _object_to_dict item]> data);;
      mret item
  | None =>
      match list_find (λ record, py_get record "login" = login item) data with
      | Some (i, record) =>
          let old_id := py_get record "id" in
          print (MsgUpdateByLogin (login item) (id item) old_id);;
          let item := User_set_id old_id item in
          _write_data self (<[i := _object_to_dict item]> data);;
          mret item
      | None =>
          print (MsgUserNotFound (id item) (login item));;
          mret item
      end
  end.

(** ** [FileAuthService] *)

Record FileAuthService := {
  user_repository : UserRepository;
  _current_user : option User
}.

Definition set_current_user (self : FileAuthService) (u : option User)
  : FileAuthService :=
  {| user_repository := user_repository self; _current_user := u |}.

Definition _load_session (self : FileAuthService) : M FileAuthService :=
  try_except
    (f ← get_session_file;
     match f with
     | Absent => mret self
     | Corrupt => raise UnpicklingError
     | Holds session_data =>
         let user_id := py_get session_data "user_id" in
         if truthy user_id then
           user ← get_by_id user_id;
           match user with
           | Some u =>
               print (MsgAutoSignedIn (name u));;
               mret (set_current_user self (Some u))
           | None => mret self
           end
         else mret self
     end)
    (λ e, print (MsgSessionLoadError e);; mret self).

Definition FileAuthService_init (user_repository : UserRepository)
  : M FileAuthService :=
  _load_session {| user_repository := user_repository;
                   _current_user := None |}.

Definition _save_session (self : FileAuthService) : M unit :=
  let session_data : record :=
    {[ "user_id" := match _current_user self with
                    | Some u => id u
                    | None => VNone
                    end ]} in
  put_session_file (Holds session_data).

Definition _clear_session : M unit :=
  f ← get_session_file;
  match f with
  | Absent => mret tt
  | _ => put_session_file Absent
  end.

Definition is_authorized (self : FileAuthService) : bool :=
  bool_decide (_current_user self ≠ None).

Definition current_user (self : FileAuthService) : option User :=
  _current_user self.

Definition sign_in (self : FileAuthService) (login' password' : string)
  : M (bool * FileAuthService) :=
  user ← get_by_login (user_repository self) (VStr login');
  match user with
  | None =>
      print (MsgLoginNotFound login');;
      mret (false, self)
  | Some u =>
      if decide (password u ≠ VStr password') then
        print MsgWrongPassword;;
        mret (false, self)
      else
        let self := set_current_user self (Some u) in
        _save_session self;;
        print (MsgWelcome (name u));;
        mret (true, self)
  end.

Definition sign_out (self : FileAuthService) : M FileAuthService :=
  self ← match _current_user self with
         | Some u =>
             print (MsgGoodbye (name u));;
             mret (set_current_user self None)
         | None => mret self
         end;
  _clear_session;;
  mret self.

(** * Vocabulary of the properties *)

(** The records a read of the repository file yields. *)
Definition stored_records (w : world) : list record :=
  match users_file w with
  | Holds data => data
  | Absent | Corrupt => []
  end.

(** The ids of a list of records, as [d.get('id')] reads them. *)
Definition ids_of (data : list record) : list value :=
  (λ d, py_get d "id") <$> data.

(** What [_write_data] puts in the file when called with [data]. *)
Definition written {T} `{Entity T} (self : JsonDataRepository T)
    (data data' : list record) : Prop :=
  match sort_key self with
  | None => data' = data
  | Some key =>
      ∃ items sorted_items,
        map_outcome data_class data = Returned items ∧
        sorted key items = Returned sorted_items ∧
        data' = _object_to_dict <$> sorted_items
  end.

Definition with_users_file (w : world) (data : list record) : world :=
  {| users_file := Holds data; session_file := session_file w;
     console := console w |}.

(** Sample worlds, repositories and users of the examples. *)
Definition empty_world : world :=
  {| users_file := Absent; session_file := Absent; console := [] |}.

Definition world_of (data : list record) : world :=
  {| users_file := Holds data; session_file := Absent; console := [] |}.

(** The repository object [UserRepository.__init__] builds. *)
Definition user_repository_object : UserRepository :=
  {| auto_sort := true; sort_key := Some name |}.

Definition ivan : User :=
  {| id := VInt 3; name := VStr "Ivan Petrov"; login := VStr "ivan";
     password := VStr "12345"; email := VStr "ivan@mail.com";
     address := VNone |}.

Definition maria : User :=
  {| id := VInt 1; name := VStr "Maria Sidorova"; login := VStr "maria";
     password := VStr "qwerty"; email := VNone; address := VNone |}.

(** The stored records whose id is that of [item]. *)
Definition matching_id {T} `{Entity T} (item : T) (data : list record)
  : list record :=
  filter (λ record, py_get record "id" = get_id item) data.

(** The sentence of the specification, read on the code: an error and
    an untouched store without a match, one record less with a match. *)
Definition delete_as_stated {T} `{Entity T} (self : JsonDataRepository T)
    (item : T) (w : world) : Prop :=
  (matching_id item (stored_records w) = [] →
   delete self item w = (Raised ValueError, w)) ∧
  (matching_id item (stored_records w) ≠ [] →
   ∃ w', delete self item w = (Returned tt, w') ∧
         length (stored_records w') = (length (stored_records w) - 1)%nat).

(** A second user stored under Maria's id. *)
Definition maria_twin : User :=
  {| id := VInt 1; name := VStr "Maria Ivanova"; login := VStr "masha";
     password := VStr "asdf"; email := VNone; address := VNone |}.

Definition maria_twin_4 : User := User_set_id (VInt 4) maria_twin.

Definition world_after_add : world :=
  {| users_file :=
       Holds [User_dict ivan; User_dict maria_twin_4; User_dict maria];
     session_file := Absent;
     console := [MsgIdExists (VInt 1) (VInt 4)] |}.

(** The sentence of the specification, read on the code: whatever the
    file holds, the entities [get_all] returns have pairwise different
    ids and the file holds repaired records afterwards. *)
Definition get_all_as_stated (T : Type) `{Entity T} (w : world) : Prop :=
  ∃ (entities : list T) w',
    get_all w = (Returned entities, w') ∧
    NoDup (get_id <$> entities) ∧
    NoDup (ids_of (stored_records w')).

(** [sign_in] fails: no stored record has the login, or the first one
    that has it decodes to a user with another password. *)
Definition credentials_rejected (login' password' : string) (w : world)
  : Prop :=
  Forall (λ record, py_get record "login" ≠ VStr login') (stored_records w) ∨
  ∃ i record u,
    list_find (λ record, py_get record "login" = VStr login')
      (stored_records w) = Some (i, record) ∧
    User_init record = Returned u ∧
    password u ≠ VStr password'.

(** The sentence of the specification, read on the code: a failed
    sign-in leaves the service anonymous, whatever its state was. *)
Definition sign_in_failure_as_stated (self : FileAuthService)
    (login' password' : string) (w : world) : Prop :=
  credentials_rejected login' password' w →
  ∃ self' w',
    sign_in self login' password' w = (Returned (false, self'), w') ∧
    is_authorized self' = false ∧
    current_user self' = None ∧
    session_file w' = session_file w.

(** The session data [_save_session] pickles for a current user. *)
Definition session_of (u : User) : record := {[ "user_id" := id u ]}.

Definition signed_in_world (data : list record) (u : User) : world :=
  {| users_file := Holds data; session_file := Holds (session_of u);
     console := [] |}.

Definition service_of (u : option User) : FileAuthService :=
  {| user_repository := user_repository_object; _current_user := u |}.

(** Every record decodes to a user whose name is a string: what
    [_write_data] of a [UserRepository] needs to sort and write. *)
Definition user_records (data : list record) : Prop :=
  Forall (λ record, ∃ u s, User_init record = Returned u ∧ name u = VStr s)
    data.

(** The scenario of the specification: the caller holds id 5 for the
    login "x" that the store has under id 3. *)
Definition stale_x : User :=
  {| id := VInt 5; name := VStr "Xenia"; login := VStr "x";
     password := VStr "secret"; email := VStr "x@mail.com";
     address := VNone |}.

Definition stored_x : record := {[ "id" := VInt 3; "login" := VStr "x" ]}.

(** The ids the loop produces: ids of [data] that it keeps, positive
    and not seen before, and new ids from [next_id] on, each used once. *)
Definition loop_id (data : list record) (seen_ids : gset value)
    (next_id : Z) (v : value) : Prop :=
  ∃ n, v = VInt n ∧
       ((0 < n ∧ n ∈ valid_ids data ∧ v ∉ seen_ids) ∨ next_id ≤ n).

(** The part of the invariant that construction establishes and the
    operations keep: no two stored records share an id. *)
Definition unique_ids (w : world) : Prop := NoDup (ids_of (stored_records w)).

(** What the console layer builds ([ConsoleService.input_user]): a user
    with the placeholder id 0. *)
Definition anna : User :=
  {| id := VInt 0; name := VStr "Anna"; login := VStr "anna";
     password := VStr "pass"; email := VNone; address := VNone |}.

(** ** Vocabulary of the further properties *)


(** The ids of [data] are positive integers, pairwise different. *)
Definition clean_ids (data : list record) : Prop :=
  NoDup (ids_of data) ∧ Forall (λ v, ∃ n, v = VInt n ∧ 0 < n) (ids_of data).

(** The id of a record is a string. *)
Definition string_id (item : record) : Prop :=
  ∃ s, py_get item "id" = VStr s.

(** Sample files for the repair. *)
Definition mixed_ids : list record :=
  [ {[ "id" := VInt 2; "login" := VStr "a" ]};
    {[ "login" := VStr "b" ]};
    {[ "id" := VInt 2; "login" := VStr "c" ]};
    {[ "id" := VInt 7; "login" := VStr "d" ]} ].

Definition mixed_ids_fixed : list record :=
  [ {[ "id" := VInt 2; "login" := VStr "a" ]};
    {[ "id" := VInt 8; "login" := VStr "b" ]};
    {[ "id" := VInt 9; "login" := VStr "c" ]};
    {[ "id" := VInt 7; "login" := VStr "d" ]} ].

(** [b] does not compare less than [a]: what holds of two neighbours
    [a], [b] of a list sorted with [<]. *)
Definition not_after (a b : value) : Prop := py_lt b a = Returned false.

(** The records are in the order [_write_data] gives a [UserRepository]
    file: by name. *)
Definition sorted_by_name (data : list record) : Prop :=
  Sorted (λ r1 r2, not_after (py_get r1 "name") (py_get r2 "name")) data.



(** The repository object the constructor returns. *)
Definition repository_object {T} (sorting : bool) (key : option (T → value))
  : JsonDataRepository T :=
  {| auto_sort := sorting; sort_key := key |}.

(** The logins of a list of records, as [d.get('login')] reads them. *)
Definition logins_of (data : list record) : list value :=
  (λ d, py_get d "login") <$> data.

(** Sample worlds after a delete of Ivan and after an update of the
    record of id 3. *)
Definition world_after_delete : world := world_of [User_dict maria].

Definition xenia_3 : User := User_set_id (VInt 3) stale_x.

Definition world_after_update : world :=
  {| users_file := Holds [User_dict maria; User_dict xenia_3];
     session_file := Absent;
     console := [MsgRecordUpdated (VInt 3)] |}.

(** ** [UserValidator] *)

(** Strings are the UTF-8 bytes of the Python string.  [c in s] for a
    one-byte character [c]. *)
Fixpoint contains (c : Ascii.ascii) (s : string) : bool :=
  match s with
  | "" => false
  | String a s' => Ascii.eqb a c || contains c s'
  end.

(** [s.split(sep)] for a one-byte separator: the parts between the
    separators, one part more than there are separators. *)
Fixpoint split (sep : Ascii.ascii) (s : string) : list string :=
  match s with
  | "" => [""]
  | String a s' =>
      if Ascii.eqb a sep then "" :: split sep s'
      else match split sep s' with
           | part :: parts => String a part :: parts
           | [] => [String a ""]
           end
  end.

(** [parts[-1]] *)
Definition last_part (parts : list string) : string := default "" (last parts).

(** [validate_email]; [None] is the Python [None]. *)
Definition validate_email (email : option string) : bool :=
  match email with
  | None | Some "" => true
  | Some email =>
      contains "@"%char email &&
      contains "."%char (last_part (split "@"%char email))
  end.

(** A byte that continues a character in UTF-8 (binary 10xxxxxx). *)
Definition continuation_byte (a : Ascii.ascii) : bool :=
  (128 <=? Ascii.nat_of_ascii a)%nat && (Ascii.nat_of_ascii a <? 192)%nat.

(** [len(s)]: the characters of [s], one for every byte that does not
    continue a character. *)
Fixpoint py_len (s : string) : nat :=
  match s with
  | "" => 0
  | String a s' => ((if continuation_byte a then 0 else 1) + py_len s')%nat
  end.

Definition validate_login (login' : string) (existing_logins : list string)
  : bool * string :=
  if decide (login' = "") then (false, "Логин не может быть пустым")
  else if (py_len login' <? 3)%nat then
    (false, "Логин должен быть не менее 3 символов")
  else if decide (login' ∈ existing_logins) then (false, "Логин уже занят")
  else (true, "").

(** ** [UserRepository.get_all] *)

(** [a < b] for two tuples: the first components that differ decide. *)
Fixpoint tuple_lt (a b : list value) : outcome bool :=
  match a, b with
  | x :: a', y :: b' => if decide (x = y) then tuple_lt a' b' else py_lt x y
  | [], _ :: _ => Returned true
  | _, [] => Returned false
  end.

(** The fields the dataclass compares ([id] has [compare=False]). *)
Definition compared_fields (u : User) : list value :=
  [name u; login u; password u; email u; address u].

(** [User.__lt__], generated by [dataclass(order=True)]. *)
Definition User_lt (u v : User) : outcome bool :=
  tuple_lt (compared_fields u) (compared_fields v).

(** [sorted(items)]: as [sorted] above, comparing the items with their
    own [<]. *)
Section SortedBy.
Context {T : Type} (lt : T → T → outcome bool).

Fixpoint insert_sorted_by (x : T) (l : list T) : outcome (list T) :=
  match l with
  | [] => Returned [x]
  | y :: l' =>
      b ← lt y x;
      if (b : bool) then r ← insert_sorted_by x l'; mret (y :: r)
      else mret (x :: y :: l')
  end.

Fixpoint sorted_by (l : list T) : outcome (list T) :=
  match l with
  | [] => Returned []
  | x :: l' => s ← sorted_by l'; insert_sorted_by x s
  end.
End SortedBy.

Definition User_get_all (self : UserRepository) : M (list User) :=
  users ← get_all;
  lift (sorted_by User_lt users).

(** Two neighbours of the list [User_get_all] returns: equal names, or
    names of which the second does not compare less. *)
Definition name_order (u v : User) : Prop :=
  name u = name v ∨ not_after (name u) (name v).

(** Every stored id is an integer. *)
Definition integer_ids (data : list record) : Prop :=
  Forall (λ v, ∃ n, v = VInt n) (ids_of data).

(** Sample world after [UserRepository.update] of the record of id 3. *)
Definition world_after_user_update : world :=
  {| users_file := Holds [User_dict maria; User_dict xenia_3];
     session_file := Absent;
     console := [MsgUserUpdated (VInt 3) (VStr "Xenia")] |}.

(** * Properties *)

(** ** Running the monads *)

Ltac unfold_monad :=
  unfold mbind, mret, M_bind, M_ret, outcome_bind, outcome_ret,
    lift, raise, try_except, print, get_users_file, put_users_file,
    get_session_file, put_session_file in *.

Ltac run := unfold_monad; simpl in *.

Lemma read_raw_data_run w : _read_raw_data w = (Returned (stored_records w), w).
Proof.
  unfold _read_raw_data, stored_records. run.
  destruct (users_file w); reflexivity.
Qed.

Lemma read_data_run w : _read_data w = (Returned (stored_records w), w).
Proof. apply read_raw_data_run. Qed.

Lemma outcome_bind_returned {A B} (f : A → outcome B) (m : outcome A) b :
  m ≫= f = Returned b → ∃ a, m = Returned a ∧ f a = Returned b.
Proof. destruct m as [a|e]; simpl; [eauto | discriminate]. Qed.

(** ** Sorting and decoding *)

Lemma insert_sorted_perm {T} (key : T → value) x l l' :
  insert_sorted key x l = Returned l' → l' ≡ₚ x :: l.
Proof.
  revert l'. induction l as [|y l IH]; intros l' Hrun; simpl in Hrun.
  - by inversion Hrun.
  - apply outcome_bind_returned in Hrun as (b & _ & Hrun).
    destruct b.
    + apply outcome_bind_returned in Hrun as (r & Hr & Hrun).
      inversion Hrun; subst. rewrite (IH _ Hr). apply Permutation_swap.
    + by inversion Hrun.
Qed.

Lemma sorted_perm {T} (key : T → value) l l' :
  sorted key l = Returned l' → l' ≡ₚ l.
Proof.
  revert l'. induction l as [|x l IH]; intros l' Hrun; simpl in Hrun.
  - by inversion Hrun.
  - apply outcome_bind_returned in Hrun as (s & Hs & Hrun).
    apply insert_sorted_perm in Hrun. rewrite Hrun. by rewrite (IH _ Hs).
Qed.

Lemma map_outcome_Forall2 {A B} (f : A → outcome B) l l' :
  map_outcome f l = Returned l' ↔ Forall2 (λ x y, f x = Returned y) l l'.
Proof.
  revert l'. induction l as [|x l IH]; intros l'; simpl.
  - split; [intros Hrun; inversion Hrun; constructor | by inversion 1].
  - split.
    + intros Hrun.
      apply outcome_bind_returned in Hrun as (y & Hy & Hrun).
      apply outcome_bind_returned in Hrun as (ys & Hys & Hrun).
      inversion Hrun; subst. constructor; [done | by apply IH].
    + inversion 1 as [|? y ? ys Hy Hys]; subst.
      rewrite Hy. simpl. apply IH in Hys. rewrite Hys. reflexivity.
Qed.

(** Sorting by a key that is a string on every item never raises. *)
Lemma insert_sorted_strings {T} (key : T → value) x l :
  Forall (λ y, ∃ s, key y = VStr s) (x :: l) →
  ∃ l', insert_sorted key x l = Returned l'.
Proof.
  intros Hall. apply Forall_cons in Hall as [[s Hx] Hl].
  induction l as [|y l IH]; simpl; [eauto |].
  apply Forall_cons in Hl as [[t Hy] Hl].
  rewrite Hx, Hy. simpl. destruct (String.ltb t s); [| eauto].
  destruct (IH Hl) as [r Hr]. rewrite Hr. simpl. eauto.
Qed.

Lemma sorted_strings {T} (key : T → value) l :
  Forall (λ y, ∃ s, key y = VStr s) l →
  ∃ l', sorted key l = Returned l'.
Proof.
  induction l as [|x l IH]; intros Hall; simpl; [eauto |].
  apply Forall_cons in Hall as [Hx Hl].
  destruct (IH Hl) as [s Hs]. rewrite Hs. simpl.
  apply insert_sorted_strings. constructor; [done |].
  apply sorted_perm in Hs. by rewrite Hs.
Qed.

(** ** Writing the repository file *)

Section WriteData.
Context {T : Type} `{EntityLaws T}.
Variable self : JsonDataRepository T.

Lemma write_data_returned data w w' :
  _write_data self data w = (Returned tt, w') →
  ∃ data', written self data data' ∧ w' = with_users_file w data'.
Proof.
  unfold _write_data, written. destruct (sort_key self) as [key|]; run.
  - destruct (map_outcome data_class data) as [items|] eqn:Hitems;
      [| discriminate].
    destruct (sorted key items) as [sorted_items|] eqn:Hsorted;
      [| discriminate].
    intros [= <-]. exists (_object_to_dict <$> sorted_items).
    split; [| done]. by exists items, sorted_items.
  - intros [= <-]. by exists data.
Qed.

Lemma write_data_raised data w e w' :
  _write_data self data w = (Raised e, w') → w' = w.
Proof.
  unfold _write_data. destruct (sort_key self) as [key|]; run.
  - destruct (map_outcome data_class data) as [items|]; [| congruence].
    destruct (sorted key items) as [sorted_items|]; congruence.
  - discriminate.
Qed.

Lemma write_data_unsorted data w :
  sort_key self = None →
  _write_data self data w = (Returned tt, with_users_file w data).
Proof. unfold _write_data. intros ->. reflexivity. Qed.

(** Re-encoding a decoded record keeps its id. *)
Lemma reencode_id item (x : T) :
  data_class item = Returned x →
  py_get (_object_to_dict x) "id" = py_get item "id".
Proof.
  intros Hx. unfold py_get at 1. rewrite dict_id. simpl.
  symmetry. by apply class_id.
Qed.

Lemma written_ids data data' :
  written self data data' → ids_of data' ≡ₚ ids_of data.
Proof.
  unfold written. destruct (sort_key self) as [key|]; [| by intros ->].
  intros (items & sorted_items & Hitems & Hsorted & ->).
  apply sorted_perm in Hsorted. unfold ids_of.
  etrans; [by do 2 apply fmap_Permutation |]. clear Hsorted.
  apply map_outcome_Forall2 in Hitems.
  induction Hitems as [|item x data items Hx _ IH]; [done |].
  simpl. rewrite (reencode_id _ _ Hx). by apply Permutation_skip.
Qed.

Lemma written_length data data' :
  written self data data' → length data' = length data.
Proof.
  intros Hw. apply written_ids in Hw. apply Permutation_length in Hw.
  unfold ids_of in Hw. by rewrite !length_fmap in Hw.
Qed.

(** A record that is the dictionary of an entity is written as it is. *)
Lemma written_object data data' (x : T) :
  written self data data' →
  _object_to_dict x ∈ data → _object_to_dict x ∈ data'.
Proof.
  unfold written. destruct (sort_key self) as [key|]; [| by intros ->].
  intros (items & sorted_items & Hitems & Hsorted & ->) Hin.
  apply sorted_perm in Hsorted. rewrite Hsorted. clear Hsorted.
  apply map_outcome_Forall2 in Hitems.
  apply list_elem_of_fmap. exists x. split; [done |].
  induction Hitems as [|item y data items Hy _ IH]; [by inversion Hin |].
  apply elem_of_cons in Hin as [<- | Hin].
  - rewrite class_of_dict in Hy. inversion Hy. by left.
  - right. by apply IH.
Qed.
End WriteData.

(** ** [User] is an entity *)

Lemma User_dict_dom u : dom (User_dict u) = User_fields.
Proof. unfold User_dict, User_fields. rewrite !dom_insert_L. set_solver. Qed.

Lemma User_init_dict u : User_init (User_dict u) = Returned u.
Proof.
  unfold User_init. rewrite decide_True by (by rewrite User_dict_dom).
  destruct u. unfold User_dict, py_get. by simplify_map_eq.
Qed.

Lemma User_init_returned item u :
  User_init item = Returned u →
  item !! "id" = Some (id u) ∧ item !! "name" = Some (name u) ∧
  item !! "login" = Some (login u) ∧ item !! "password" = Some (password u) ∧
  email u = py_get item "email" ∧ address u = py_get item "address".
Proof.
  unfold User_init. case_decide; [| discriminate].
  destruct (item !! "id"), (item !! "name"), (item !! "login"),
    (item !! "password"); try discriminate.
  by intros [= <-].
Qed.

#[global] Instance User_laws : EntityLaws User.
Proof.
  split.
  - intros u. unfold _object_to_dict; simpl. unfold User_dict.
    by simplify_map_eq.
  - intros v u. unfold _object_to_dict; simpl. unfold User_dict; simpl.
    by rewrite insert_insert_eq.
  - apply User_init_dict.
  - intros item u Hu. apply User_init_returned in Hu as (Hid & _).
    unfold py_get. by rewrite Hid.
Qed.

Lemma bind_run {A B} (m : M A) (f : A → M B) w :
  (m ≫= f) w = match m w with
               | (Returned a, w') => f a w'
               | (Raised e, w') => (Raised e, w')
               end.
Proof. reflexivity. Qed.

Lemma print_run msg w :
  print msg w = (Returned tt,
                 {| users_file := users_file w;
                    session_file := session_file w;
                    console := console w ++ [msg] |}).
Proof. reflexivity. Qed.

Lemma list_find_key_None (key : string) (v : value) (data : list record) :
  Forall (λ record, py_get record key ≠ v) data →
  list_find (λ record, py_get record key = v) data = None.
Proof. intros Hall. by apply list_find_None. Qed.

(** ** Generic update of an unknown id *)

(** C2.  When no stored record has the id of the entity,
    [JsonDataRepository.update] returns without writing: the repository
    file (and the session file) are as before, nothing is appended, and
    the failure is reported by the two lines printed on the console. *)
Theorem update_unknown_id_is_noop {T} `{Entity T}
    (self : JsonDataRepository T) (item : T) (w : world) :
  Forall (λ record, py_get record "id" ≠ get_id item) (stored_records w) →
  ∃ w', update self item w = (Returned tt, w') ∧
        users_file w' = users_file w ∧
        session_file w' = session_file w ∧
        console w' =
          (console w ++ [MsgRecordNotFound (get_id item); MsgUseAdd])%list.
Proof.
  intros Hfresh. unfold update. rewrite bind_run, read_data_run.
  rewrite (list_find_key_None _ _ _ Hfresh).
  rewrite bind_run, !print_run. simpl.
  eexists. split; [reflexivity |]. simpl.
  by rewrite <- app_assoc.
Qed.

Lemma update_unknown_id_is_noop_witness :
  Forall (λ record, py_get record "id" ≠ get_id (User_set_id (VInt 5) ivan))
    (stored_records (world_of [User_dict ivan; User_dict maria])) ∧
  ∃ w', update user_repository_object (User_set_id (VInt 5) ivan)
          (world_of [User_dict ivan; User_dict maria]) = (Returned tt, w') ∧
        users_file w' = Holds [User_dict ivan; User_dict maria].
Proof.
  assert (Hfresh :
    Forall (λ record, py_get record "id" ≠ get_id (User_set_id (VInt 5) ivan))
      (stored_records (world_of [User_dict ivan; User_dict maria]))).
  { repeat constructor; vm_compute; discriminate. }
  split; [exact Hfresh |].
  destruct (update_unknown_id_is_noop user_repository_object
              (User_set_id (VInt 5) ivan) _ Hfresh) as (w' & Hrun & Hfile & _).
  exists w'. split; [exact Hrun | exact Hfile].
Defined.

(** ** Delete *)

Lemma filter_split_length {A} (P : A → Prop) `{∀ x, Decision (P x)}
    (l : list A) :
  (length (filter (λ x, ¬ P x) l) + length (filter P l) = length l)%nat.
Proof.
  induction l as [|x l IH]; [done |].
  rewrite !filter_cons. destruct (decide (P x)).
  - rewrite decide_False by tauto. simpl. lia.
  - rewrite decide_True by done. simpl. lia.
Qed.

(** Two stored records share id 1: deleting an entity with id 1 removes
    both, so the count drops by two. *)
Lemma delete_as_stated_fails_on_shared_id :
  ¬ delete_as_stated user_repository_object maria
      (world_of [User_dict maria; User_dict maria_twin; User_dict ivan]).
Proof.
  intros [_ Hdel].
  destruct Hdel as (w' & Hrun & Hlen); [vm_compute; discriminate |].
  vm_compute in Hrun. inversion Hrun; subst w'; clear Hrun.
  vm_compute in Hlen. discriminate.
Qed.

(** C3 (amended).  Without a stored record of the entity's id, [delete]
    raises [ValueError] (the code's not-found error) and the world is as
    before.  With such records, a [delete] that returns has written the
    store without every record of that id: the count drops by the
    number of matching records, by exactly one when a single record
    matches, and nothing else is touched.  A repository without sort key
    always returns in that case. *)
Theorem delete_removes_every_match {T} `{EntityLaws T}
    (self : JsonDataRepository T) (item : T) (w : world) :
  (matching_id item (stored_records w) = [] →
   delete self item w = (Raised ValueError, w)) ∧
  (matching_id item (stored_records w) ≠ [] →
   (∀ w', delete self item w = (Returned tt, w') →
      (length (stored_records w') + length (matching_id item (stored_records w))
       = length (stored_records w))%nat ∧
      (length (matching_id item (stored_records w)) = 1%nat →
       length (stored_records w') = (length (stored_records w) - 1)%nat) ∧
      Forall (λ record, py_get record "id" ≠ get_id item) (stored_records w') ∧
      session_file w' = session_file w ∧ console w' = console w) ∧
   (sort_key self = None → ∃ w', delete self item w = (Returned tt, w'))).
Proof.
  pose proof (filter_split_length
                (λ record, py_get record "id" = get_id item)
                (stored_records w)) as Hsplit.
  fold (matching_id item (stored_records w)) in Hsplit.
  unfold delete. rewrite bind_run, read_data_run.
  set (new_data := filter _ (stored_records w)) in *.
  split.
  - intros Hnone. rewrite Hnone in Hsplit. simpl in Hsplit.
    rewrite decide_True by lia. reflexivity.
  - intros Hsome.
    assert (length (matching_id item (stored_records w)) ≠ 0%nat) as Hpos.
    { intros Hlen. by apply nil_length_inv in Hlen. }
    rewrite decide_False by lia. split.
    + intros w' Hrun.
      apply write_data_returned in Hrun as (data' & Hwritten & ->).
      pose proof (written_length _ _ _ Hwritten) as Hlen.
      pose proof (written_ids _ _ _ Hwritten) as Hids.
      change (stored_records (with_users_file w data')) with data'.
      split; [lia |]. split; [lia |]. split; [| done].
      apply Forall_forall. intros record Hin Heq.
      assert (get_id item ∈ ids_of new_data) as Hmem.
      { rewrite <- Hids. rewrite <- Heq. unfold ids_of.
        apply list_elem_of_fmap. eauto. }
      apply list_elem_of_fmap in Hmem as (r & Hr & Hrin).
      apply list_elem_of_filter in Hrin as [Hne _]. by apply Hne.
    + intros Hkey. eexists. by apply write_data_unsorted.
Qed.

Lemma delete_removes_every_match_witness :
  matching_id ivan (stored_records (world_of [User_dict maria; User_dict ivan]))
    ≠ [] ∧
  (∀ w', delete user_repository_object ivan
           (world_of [User_dict maria; User_dict ivan]) = (Returned tt, w') →
         length (stored_records w') = 1%nat).
Proof.
  assert (Hmatch : matching_id ivan
            (stored_records (world_of [User_dict maria; User_dict ivan])) ≠ []).
  { vm_compute. discriminate. }
  split; [exact Hmatch |].
  intros w' Hrun.
  destruct (delete_removes_every_match user_repository_object ivan
              (world_of [User_dict maria; User_dict ivan])) as [_ Hsome].
  destruct (Hsome Hmatch) as [Hret _].
  destruct (Hret w' Hrun) as (_ & Hone & _).
  rewrite Hone; [reflexivity | vm_compute; reflexivity].
Defined.

(** ** The next free id computed by [add] *)

Lemma py_max_from_int best vs k :
  py_max_from best vs = Returned (VInt k) →
  (∃ b, best = VInt b ∧ b ≤ k) ∧
  Forall (λ v, ∃ j, v = VInt j ∧ j ≤ k) vs ∧
  VInt k ∈ best :: vs.
Proof.
  revert best. induction vs as [|v vs IH]; intros best Hrun; simpl in Hrun.
  - inversion Hrun; subst. split; [exists k; split; [done | lia] |].
    split; [constructor | by left].
  - apply outcome_bind_returned in Hrun as (best' & Hstep & Hrun).
    apply IH in Hrun as ((b' & -> & Hb') & Hvs & Hin).
    unfold py_max_step in Hstep.
    apply outcome_bind_returned in Hstep as (lt & Hlt & Hstep).
    destruct best as [|b|s], v as [|j|t]; try discriminate.
    + inversion Hlt; subst lt. destruct (Z.ltb_spec b j);
        inversion Hstep; subst.
      * split; [exists b; split; [done | lia] |].
        split; [constructor; [exists b'; split; [done | lia] | done] |].
        apply elem_of_cons in Hin as [-> | Hin]; [right; by left |].
        by do 2 right.
      * split; [exists b'; split; [done | lia] |].
        split; [constructor; [exists j; split; [done | lia] | done] |].
        apply elem_of_cons in Hin as [-> | Hin]; [by left |].
        by do 2 right.
    + simpl in Hlt. inversion Hlt; subst lt.
      destruct (String.ltb s t); inversion Hstep.
Qed.

(** [max(ids, default=0) + 1], when it does not raise, is an integer
    above every id, and the successor of one of them (of 0 without ids). *)
Lemma py_max_succ_spec vs m next :
  py_max vs = Returned m → py_succ m = Returned next →
  ∃ n, next = VInt n ∧
       Forall (λ v, ∃ j, v = VInt j ∧ j < n) vs ∧
       (vs = [] ∧ n = 1 ∨ VInt (n - 1) ∈ vs).
Proof.
  intros Hmax Hsucc. destruct m as [|k|s]; try discriminate.
  inversion Hsucc; subst next. exists (k + 1). split; [done |].
  destruct vs as [|v vs]; simpl in Hmax.
  - inversion Hmax; subst. split; [constructor | by left].
  - apply py_max_from_int in Hmax as ((b & -> & Hb) & Hvs & Hin).
    split.
    + constructor; [exists b; split; [done | lia] |].
      eapply Forall_impl; [exact Hvs |].
      intros v' (j & -> & Hj). exists j. split; [done | lia].
    + right. by replace (k + 1 - 1) with k by lia.
Qed.

(** ** Add *)

Lemma reencode_ids {T} `{EntityLaws T} (data : list record) (items : list T) :
  Forall2 (λ item x, data_class item = Returned x) data items →
  ids_of (_object_to_dict <$> items) = ids_of data.
Proof.
  induction 1 as [|item x data items Hx _ IH]; [done |].
  unfold ids_of in *. rewrite !fmap_cons.
  by rewrite (reencode_id _ _ Hx), IH.
Qed.

(** Writing a list that ends with the dictionary of an entity stores
    that dictionary, next to records with the ids of the others. *)
Lemma written_append {T} `{EntityLaws T} (self : JsonDataRepository T)
    data (x : T) data' :
  written self (data ++ [_object_to_dict x]) data' →
  ∃ others, data' ≡ₚ others ++ [_object_to_dict x] ∧
            ids_of others = ids_of data.
Proof.
  unfold written. destruct (sort_key self) as [key|].
  - intros (items & sorted_items & Hitems & Hsorted & ->).
    apply sorted_perm in Hsorted.
    apply map_outcome_Forall2 in Hitems.
    apply Forall2_app_inv_l in Hitems as (items0 & items1 & H0' & H1' & ->).
    inversion H1' as [|? y ? ? Hy Hnil]; subst. inversion Hnil; subst.
    rewrite class_of_dict in Hy. inversion Hy; subst y.
    exists (_object_to_dict <$> items0). split.
    + rewrite Hsorted. by rewrite fmap_app.
    + by apply reencode_ids.
  - intros ->. by exists data.
Qed.

Section Add.
Context {T : Type} `{EntityLaws T}.
Variable self : JsonDataRepository T.

(** What a returning [add] has done: the entity keeps its id when no
    stored record has it, and otherwise gets the integer after the
    greatest stored id; its dictionary is appended to the records
    read, and that list is written. *)
Lemma add_returned (item item' : T) w w' :
  add self item w = (Returned item', w') →
  (((get_id item ∉ ids_of (stored_records w)) ∧ item' = item ∧
    console w' = console w)
   ∨
   (get_id item ∈ ids_of (stored_records w) ∧
    ∃ n, item' = set_id (VInt n) item ∧
         Forall (λ v, ∃ j, v = VInt j ∧ j < n) (ids_of (stored_records w)) ∧
         VInt (n - 1) ∈ ids_of (stored_records w) ∧
         console w' =
           (console w ++ [MsgIdExists (get_id item) (VInt n)])%list)) ∧
  session_file w' = session_file w ∧
  ∃ data', written self (stored_records w ++ [_object_to_dict item']) data' ∧
           users_file w' = Holds data'.
Proof.
  unfold add. rewrite bind_run, read_data_run, bind_run.
  set (data := stored_records w).
  assert (Hmem : ∀ v, v ∈ existing_ids data ↔ v ∈ ids_of data).
  { intros v. unfold existing_ids, ids_of. apply elem_of_list_to_set. }
  destruct (decide (get_id item ∈ existing_ids data)) as [Hin | Hnotin].
  - rewrite bind_run. unfold lift at 1.
    destruct (py_max (elements (existing_ids data))) as [m|] eqn:Hmax;
      [| discriminate].
    rewrite bind_run. unfold lift at 1.
    destruct (py_succ m) as [next|] eqn:Hsucc; [| discriminate].
    destruct (py_max_succ_spec _ _ _ Hmax Hsucc) as (n & -> & Hall & Hlast).
    rewrite bind_run, print_run. unfold mret at 1, M_ret at 1.
    rewrite bind_run.
    destruct (_write_data _ _ _) as [[[]|e] w1] eqn:Hwrite; [| discriminate].
    intros [= <- <-].
    apply write_data_returned in Hwrite as (data' & Hwritten & ->).
    split; [right | split; [done | by exists data']].
    split; [by apply Hmem |]. exists n. split; [done |].
    split; [| split; [| done]].
    + apply Forall_forall. intros v Hv.
      rewrite Forall_forall in Hall. apply Hall.
      apply elem_of_elements. by apply Hmem.
    + destruct Hlast as [[Hnil _] | Hlast].
      * apply elements_empty_inv in Hnil.
        apply leibniz_equiv in Hnil. rewrite Hnil in Hin.
        by apply not_elem_of_empty in Hin.
      * apply elem_of_elements in Hlast. by apply Hmem.
  - unfold mret at 1, M_ret at 1. rewrite bind_run.
    destruct (_write_data _ _ _) as [[[]|e] w1] eqn:Hwrite; [| discriminate].
    intros [= <- <-].
    apply write_data_returned in Hwrite as (data' & Hwritten & ->).
    split; [left | split; [done | by exists data']].
    split; [| done]. intros Hin. by apply Hnotin, Hmem.
Qed.
End Add.

Lemma get_id_set_id {T} `{EntityLaws T} v (x : T) : get_id (set_id v x) = v.
Proof.
  pose proof (dict_id (set_id v x)) as Hid.
  rewrite dict_set_id, lookup_insert_eq in Hid. congruence.
Qed.

Lemma py_get_dict_id {T} `{EntityLaws T} (x : T) :
  py_get (_object_to_dict x) "id" = get_id x.
Proof. unfold py_get. by rewrite dict_id. Qed.

(** The id an entity has after a returning [add] is the id of no record
    that was stored before. *)
Lemma add_id_fresh {T} `{EntityLaws T} (self : JsonDataRepository T)
    (item item' : T) w w' :
  add self item w = (Returned item', w') →
  get_id item' ∉ ids_of (stored_records w).
Proof.
  intros Hrun. apply add_returned in Hrun as (Hid & _).
  destruct Hid as [(Hfresh & -> & _) | (_ & n & -> & Hall & _)]; [done |].
  rewrite get_id_set_id. intros Hin.
  rewrite Forall_forall in Hall. destruct (Hall _ Hin) as (j & [= <-] & Hj).
  lia.
Qed.

(** After a returning [add], the first stored record with the id of the
    entity is the dictionary of the entity. *)
Lemma add_find_by_id {T} `{EntityLaws T} (self : JsonDataRepository T)
    (item item' : T) w w' :
  add self item w = (Returned item', w') →
  ∃ i, list_find (λ record, py_get record "id" = get_id item')
         (stored_records w') = Some (i, _object_to_dict item').
Proof.
  intros Hrun. pose proof (add_id_fresh _ _ _ _ _ Hrun) as Hfresh.
  apply add_returned in Hrun as (_ & _ & data' & Hwritten & Hfile).
  unfold stored_records at 1. rewrite Hfile.
  apply written_append in Hwritten as (others & Hperm & Hids).
  assert (_object_to_dict item' ∈ data') as Hin.
  { rewrite Hperm. apply elem_of_app. right. by left. }
  destruct (list_find_elem_of
              (λ record, py_get record "id" = get_id item') data'
              (_object_to_dict item') Hin (py_get_dict_id item'))
    as [[i y] Hfind].
  exists i. rewrite Hfind. do 2 f_equal.
  apply list_find_Some in Hfind as (Hlookup & Hy & _).
  apply list_elem_of_lookup_2 in Hlookup.
  rewrite Hperm in Hlookup.
  apply elem_of_app in Hlookup as [Hother | Hlast].
  - exfalso. apply Hfresh. rewrite <- Hids, <- Hy.
    unfold ids_of. apply list_elem_of_fmap. eauto.
  - by apply list_elem_of_singleton in Hlast.
Qed.

(** C9.  After an [add] that returns, [get_by_id] called with the id the
    entity now has returns that entity: the entity added, with its id
    replaced when the repository reassigned it and every other field as
    given. *)
Theorem add_then_get_by_id {T} `{EntityLaws T} (self : JsonDataRepository T)
    (item item' : T) (w w' : world) :
  add self item w = (Returned item', w') →
  get_by_id (get_id item') w' = (Returned (Some item'), w') ∧
  (item' = item ∨ ∃ v, item' = set_id v item).
Proof.
  intros Hrun. split.
  - destruct (add_find_by_id _ _ _ _ _ Hrun) as [i Hfind].
    unfold get_by_id. rewrite bind_run, read_data_run, Hfind.
    rewrite bind_run. unfold lift. by rewrite class_of_dict.
  - apply add_returned in Hrun as (Hid & _).
    destruct Hid as [(_ & -> & _) | (_ & n & -> & _)]; eauto.
Qed.

Lemma add_maria_twin_run :
  add user_repository_object maria_twin
    (world_of [User_dict maria; User_dict ivan])
  = (Returned maria_twin_4, world_after_add).
Proof. vm_compute. reflexivity. Qed.

Lemma add_then_get_by_id_witness :
  add user_repository_object maria_twin
    (world_of [User_dict maria; User_dict ivan])
  = (Returned maria_twin_4, world_after_add) ∧
  get_by_id (VInt 4) world_after_add
  = (Returned (Some maria_twin_4), world_after_add).
Proof.
  split; [exact add_maria_twin_run |].
  exact (proj1 (add_then_get_by_id user_repository_object maria_twin
                  maria_twin_4 _ _ add_maria_twin_run)).
Defined.

(** C10.  [add] returns nothing; it reports the id through the caller's
    object.  After an [add] that returns, the id of that object is the id
    of the record appended to the records read, and the list so extended
    is what was written: the original id when no stored record had it,
    and otherwise the integer following the greatest stored id. *)
Theorem add_sets_caller_id {T} `{EntityLaws T} (self : JsonDataRepository T)
    (item item' : T) (w w' : world) :
  add self item w = (Returned item', w') →
  py_get (_object_to_dict item') "id" = get_id item' ∧
  written self (stored_records w ++ [_object_to_dict item'])
    (stored_records w') ∧
  _object_to_dict item' ∈ stored_records w' ∧
  (((get_id item ∉ ids_of (stored_records w)) ∧ get_id item' = get_id item)
   ∨
   (get_id item ∈ ids_of (stored_records w) ∧
    ∃ n, get_id item' = VInt n ∧
         VInt (n - 1) ∈ ids_of (stored_records w) ∧
         Forall (λ v, ∃ j, v = VInt j ∧ j < n) (ids_of (stored_records w)))).
Proof.
  intros Hrun. split; [apply py_get_dict_id |].
  destruct (add_find_by_id _ _ _ _ _ Hrun) as [i Hfind].
  apply list_find_Some in Hfind as (Hlookup & _).
  apply list_elem_of_lookup_2 in Hlookup.
  apply add_returned in Hrun as (Hid & _ & data' & Hwritten & Hfile).
  assert (stored_records w' = data') as Hstored.
  { unfold stored_records. by rewrite Hfile. }
  rewrite Hstored in *.
  split; [done |]. split; [done |].
  destruct Hid as [(Hfresh & -> & _) | (Hin & n & -> & Hall & Hlast & _)].
  - by left.
  - right. split; [done |]. exists n. by rewrite get_id_set_id.
Qed.

Lemma add_sets_caller_id_witness :
  add user_repository_object maria_twin
    (world_of [User_dict maria; User_dict ivan])
  = (Returned maria_twin_4, world_after_add) ∧
  py_get (User_dict maria_twin_4) "id" = id maria_twin_4 ∧
  User_dict maria_twin_4 ∈ stored_records world_after_add.
Proof.
  split; [exact add_maria_twin_run |].
  destruct (add_sets_caller_id user_repository_object maria_twin
              maria_twin_4 _ _ add_maria_twin_run)
    as (Hid & _ & Hin & _).
  split; [exact Hid | exact Hin].
Defined.

(** ** Reading all records *)

(** A file edited to hold two records of id 1 is returned as it is. *)
Lemma get_all_as_stated_fails_on_shared_id :
  ¬ get_all_as_stated User
      (world_of [User_dict maria; User_dict maria_twin; User_dict ivan]).
Proof.
  intros (entities & w' & Hrun & Hnodup & _).
  vm_compute in Hrun. inversion Hrun; subst entities w'; clear Hrun.
  apply NoDup_cons in Hnodup as [Hnotin _].
  apply Hnotin. vm_compute. by left.
Qed.

(** C6 (amended).  [get_all] reads the records and maps each of them to
    an entity, in the stored order; it repairs nothing and writes
    nothing.  The world after the call is the world before it, and the
    entities returned carry the ids of the stored records, shared ids
    included. *)
Theorem get_all_reads_without_repair {T} `{EntityLaws T} (w : world) :
  get_all w = (map_outcome data_class (stored_records w), w) ∧
  ∀ entities : list T,
    map_outcome data_class (stored_records w) = Returned entities →
    get_id <$> entities = ids_of (stored_records w).
Proof.
  split.
  - unfold get_all. by rewrite bind_run, read_data_run.
  - intros entities Hrun. apply map_outcome_Forall2 in Hrun.
    rewrite <- (reencode_ids _ _ Hrun). unfold ids_of.
    rewrite <- list_fmap_compose. apply list_fmap_ext.
    intros _ x _. simpl. by rewrite py_get_dict_id.
Qed.

Lemma get_all_reads_without_repair_witness :
  get_all (world_of [User_dict maria; User_dict maria_twin])
  = (Returned [maria; maria_twin],
     world_of [User_dict maria; User_dict maria_twin]).
Proof.
  destruct (get_all_reads_without_repair (T := User)
              (world_of [User_dict maria; User_dict maria_twin]))
    as [Hrun _].
  rewrite Hrun. vm_compute. reflexivity.
Defined.

(** ** Failed sign-in *)

(** Maria is signed in; a sign-in as Ivan with a wrong password returns
    false and Maria is still the current user. *)
Lemma sign_in_failure_as_stated_fails_when_signed_in :
  ¬ sign_in_failure_as_stated (service_of (Some maria)) "ivan" "wrong"
      (signed_in_world [User_dict maria; User_dict ivan] maria).
Proof.
  intros Hclaim.
  destruct Hclaim as (self' & w' & Hrun & Hauth & _).
  - right. exists 1%nat, (User_dict ivan), ivan.
    split; [vm_compute; reflexivity |].
    split; [apply User_init_dict | vm_compute; discriminate].
  - vm_compute in Hrun. inversion Hrun; subst self' w'; clear Hrun.
    vm_compute in Hauth. discriminate.
Qed.

(** C7 (amended).  A [sign_in] with a login that no stored record has,
    or with a password other than the stored user's, returns false and
    changes neither the service nor the files: an anonymous service
    stays anonymous, a signed-in service keeps its current user, and the
    session file and the repository file are as before. *)
Theorem sign_in_failure_keeps_state (self : FileAuthService)
    (login' password' : string) (w : world) :
  credentials_rejected login' password' w →
  ∃ w', sign_in self login' password' w = (Returned (false, self), w') ∧
        session_file w' = session_file w ∧
        users_file w' = users_file w.
Proof.
  intros Hrejected. unfold sign_in, get_by_login.
  rewrite !bind_run, read_data_run.
  destruct Hrejected as [Habsent | (i & record & u & Hfind & Hu & Hpw)].
  - rewrite (list_find_key_None _ _ _ Habsent).
    unfold mret at 1, M_ret at 1. rewrite bind_run, print_run.
    eexists. split; [reflexivity | done].
  - rewrite Hfind, bind_run. unfold lift at 1. rewrite Hu.
    unfold mret at 1, M_ret at 1.
    rewrite decide_True by done. rewrite bind_run, print_run.
    eexists. split; [reflexivity | done].
Qed.

Lemma sign_in_failure_keeps_state_witness :
  credentials_rejected "ivan" "wrong"
    (signed_in_world [User_dict maria; User_dict ivan] maria) ∧
  ∃ w', sign_in (service_of None) "ivan" "wrong"
          (signed_in_world [User_dict maria; User_dict ivan] maria)
        = (Returned (false, service_of None), w') ∧
        session_file w' = Holds (session_of maria).
Proof.
  assert (Hrejected : credentials_rejected "ivan" "wrong"
            (signed_in_world [User_dict maria; User_dict ivan] maria)).
  { right. exists 1%nat, (User_dict ivan), ivan.
    split; [vm_compute; reflexivity |].
    split; [apply User_init_dict | vm_compute; discriminate]. }
  split; [exact Hrejected |].
  destruct (sign_in_failure_keeps_state (service_of None) "ivan" "wrong"
              _ Hrejected) as (w' & Hrun & Hsession & _).
  exists w'. split; [exact Hrun | exact Hsession].
Defined.

(** ** Update of a user found by login *)

Lemma user_records_decode data :
  user_records data →
  ∃ items, map_outcome User_init data = Returned items ∧
           Forall (λ u, ∃ s, name u = VStr s) items.
Proof.
  induction 1 as [|record data (u & s & Hu & Hs) _ (items & Hitems & Hnames)].
  - exists []. by split.
  - exists (u :: items). simpl. rewrite Hu. simpl. rewrite Hitems. simpl.
    split; [done |]. constructor; eauto.
Qed.

Lemma write_user_records data w :
  user_records data →
  ∃ w', _write_data user_repository_object data w = (Returned tt, w').
Proof.
  intros Hdata. destruct (user_records_decode _ Hdata) as (items & Hi & Hn).
  destruct (sorted_strings name items Hn) as [sorted_items Hs].
  unfold _write_data. simpl. rewrite bind_run.
  change (data_class (T := User)) with User_init.
  rewrite bind_run. unfold lift at 1. rewrite Hi.
  rewrite bind_run. unfold lift at 1. rewrite Hs.
  eexists. reflexivity.
Qed.

(** C4.  Let no stored record have the id of [item].  If the first
    stored record with the login of [item] is [record], at index [i],
    then an update that returns has replaced it: the object now has the
    id that was stored (not the caller's), the record written in its
    place is the caller's dictionary with that id, the list written is
    the list read with index [i] replaced, and the update does return
    when that list consists of user records.  If no stored record has
    the login either, the update prints the not-found line and returns
    without writing. *)
Theorem user_update_falls_back_to_login (self : UserRepository)
    (item : User) (w : world) :
  Forall (λ record, py_get record "id" ≠ id item) (stored_records w) →
  (∀ i record,
     list_find (λ record, py_get record "login" = login item)
       (stored_records w) = Some (i, record) →
     let item' := User_set_id (py_get record "id") item in
     let data := <[i := User_dict item']> (stored_records w) in
     id item' ≠ id item ∧
     User_dict item' = <["id" := py_get record "id"]> (User_dict item) ∧
     (∀ result w', User_update self item w = (Returned result, w') →
        result = item' ∧
        written self data (stored_records w') ∧
        User_dict item' ∈ stored_records w' ∧
        length (stored_records w') = length (stored_records w) ∧
        session_file w' = session_file w) ∧
     (self = user_repository_object → user_records data →
      ∃ w', User_update self item w = (Returned item', w'))) ∧
  (Forall (λ record, py_get record "login" ≠ login item) (stored_records w) →
   ∃ w', User_update self item w = (Returned item, w') ∧
         users_file w' = users_file w ∧
         session_file w' = session_file w ∧
         console w' =
           (console w ++ [MsgUserNotFound (id item) (login item)])%list).
Proof.
  intros Hid. split.
  - intros i record Hfind item' data.
    unfold User_update. rewrite bind_run, read_data_run.
    rewrite (list_find_key_None _ _ _ Hid), Hfind.
    apply list_find_Some in Hfind as (Hlookup & _).
    split; [| split; [| split]].
    + simpl. intros Heq. rewrite Forall_forall in Hid.
      apply (Hid record); [| done]. by eapply list_elem_of_lookup_2.
    + exact (dict_set_id (T := User) (py_get record "id") item).
    + intros result w'. rewrite bind_run, print_run, bind_run.
      change (@_object_to_dict User User_entity) with User_dict.
      fold item'. fold data.
      destruct (_write_data _ _ _) as [[[]|e] w1] eqn:Hwrite; [| discriminate].
      intros [= <- <-].
      apply write_data_returned in Hwrite as (data' & Hwritten & ->).
      change (stored_records (with_users_file _ data')) with data'.
      split; [done |]. split; [done |]. split; [| split; [| done]].
      * apply (written_object self data data' item' Hwritten).
        apply list_elem_of_lookup. exists i.
        apply list_lookup_insert_eq. by eapply lookup_lt_Some.
      * rewrite (written_length _ _ _ Hwritten). apply length_insert.
    + intros -> Hdata. rewrite bind_run, print_run, bind_run.
      change (@_object_to_dict User User_entity) with User_dict.
      fold item'. fold data.
      destruct (write_user_records data
                  {| users_file := users_file w;
                     session_file := session_file w;
                     console := (console w ++
                       [MsgUpdateByLogin (login item) (id item)
                          (py_get record "id")])%list |} Hdata)
        as [w' Hwrite].
      rewrite Hwrite. by exists w'.
  - intros Hlogin. unfold User_update. rewrite bind_run, read_data_run.
    rewrite (list_find_key_None _ _ _ Hid).
    rewrite (list_find_key_None _ _ _ Hlogin).
    rewrite bind_run, print_run. eexists. split; [reflexivity | done].
Qed.

Lemma user_update_falls_back_to_login_witness :
  Forall (λ record, py_get record "id" ≠ id stale_x)
    (stored_records (world_of [User_dict maria; stored_x])) ∧
  ∃ w', User_update user_repository_object stale_x
          (world_of [User_dict maria; stored_x])
        = (Returned (User_set_id (VInt 3) stale_x), w') ∧
        users_file w'
        = Holds [User_dict maria; User_dict (User_set_id (VInt 3) stale_x)].
Proof.
  assert (Hid : Forall (λ record, py_get record "id" ≠ id stale_x)
            (stored_records (world_of [User_dict maria; stored_x]))).
  { repeat constructor; vm_compute; discriminate. }
  split; [exact Hid |].
  destruct (user_update_falls_back_to_login user_repository_object stale_x
              _ Hid) as [Hfound _].
  destruct (Hfound 1%nat stored_x) as (_ & _ & Hreturned & Htotal);
    [vm_compute; reflexivity |].
  destruct Htotal as [w' Hrun]; [reflexivity | |].
  - repeat constructor.
    + exists maria, "Maria Sidorova". split; [apply User_init_dict | done].
    + exists (User_set_id (VInt 3) stale_x), "Xenia".
      split; [apply User_init_dict | done].
  - exists w'. split; [exact Hrun |].
    vm_compute in Hrun. inversion Hrun. reflexivity.
Defined.

(** ** Identity repair *)

Lemma max_default_ge d xs n : n ∈ xs → n ≤ max_default d xs.
Proof.
  destruct xs as [|x xs]; [by inversion 1 |]. simpl.
  assert (Hfold : ∀ l a, a ≤ foldl Z.max a l ∧ ∀ y, y ∈ l → y ≤ foldl Z.max a l).
  { induction l as [|z l IH]; intros a; simpl.
    - split; [lia | by inversion 1].
    - destruct (IH (Z.max a z)) as [Ha Hl]. split; [lia |].
      intros y Hy. apply elem_of_cons in Hy as [-> | Hy]; [lia | by apply Hl]. }
  destruct (Hfold xs x) as [Hx Hxs].
  intros Hn. apply elem_of_cons in Hn as [-> | Hn]; [done | by apply Hxs].
Qed.

Lemma valid_ids_elem data item n :
  item ∈ data → py_get item "id" = VInt n → n ∈ valid_ids data.
Proof.
  intros Hin Hid. unfold valid_ids. apply list_elem_of_omap.
  exists item. split; [done |]. by rewrite Hid.
Qed.

(** An id that the loop keeps is a positive integer. *)
Lemma kept_id_positive item_id :
  (if decide (item_id = VNone) then Returned true
   else py_le_int item_id 0) = Returned false →
  ∃ n, item_id = VInt n ∧ 0 < n.
Proof.
  case_decide; [discriminate |].
  destruct item_id as [|n|s]; try discriminate. simpl.
  intros [= Hle]. exists n. split; [done |]. by apply Z.leb_gt.
Qed.

Lemma valid_ids_cons item rest n :
  n ∈ valid_ids rest → n ∈ valid_ids (item :: rest).
Proof.
  unfold valid_ids. simpl. destruct (py_get item "id"); simpl; try done.
  by right.
Qed.

Lemma fix_loop_ids data seen_ids next_id fixed :
  fix_loop data seen_ids next_id = Returned fixed →
  Forall (λ n, n < next_id) (valid_ids data) →
  NoDup (ids_of fixed) ∧
  Forall (loop_id data seen_ids next_id) (ids_of fixed).
Proof.
  revert seen_ids next_id fixed.
  induction data as [|item rest IH]; intros seen_ids next_id fixed Hrun Hbelow.
  - inversion Hrun. split; constructor.
  - simpl in Hrun. rewrite Forall_forall in Hbelow.
    assert (Hrest : ∀ k, next_id ≤ k → Forall (λ n, n < k) (valid_ids rest)).
    { intros k Hk. apply Forall_forall. intros n Hn.
      specialize (Hbelow n (valid_ids_cons item _ _ Hn)). lia. }
    assert (Hnew : ∀ fixed', fix_loop rest seen_ids (next_id + 1)
                             = Returned fixed' →
              NoDup (ids_of (<["id" := VInt next_id]> item :: fixed')) ∧
              Forall (loop_id (item :: rest) seen_ids next_id)
                (ids_of (<["id" := VInt next_id]> item :: fixed'))).
    { intros fixed' Hrun'.
      destruct (IH _ _ _ Hrun' (Hrest (next_id + 1) ltac:(lia)))
        as [Hnodup Hall].
      unfold ids_of in *. rewrite fmap_cons.
      replace (py_get (<["id" := VInt next_id]> item) "id")
        with (VInt next_id)
        by (unfold py_get; by rewrite lookup_insert_eq).
      split.
      - constructor; [| done]. intros Hin.
        rewrite Forall_forall in Hall.
        destruct (Hall _ Hin) as (n & [= <-] & [(_ & Hn & _) | Hfresh]);
          [| lia].
        specialize (Hbelow _ (valid_ids_cons item _ _ Hn)). lia.
      - constructor; [exists next_id; split; [done | right; lia] |].
        eapply Forall_impl; [exact Hall |].
        intros v (n & -> & [(? & ? & ?) | ?]); exists n;
          (split; [done |]); [left | right; lia].
        repeat split; [done | by apply valid_ids_cons | done]. }
    apply outcome_bind_returned in Hrun as (missing & Hmissing & Hrun).
    destruct missing.
    + apply outcome_bind_returned in Hrun as (fixed' & Hrun' & [= <-]).
      by apply Hnew.
    + destruct (decide (py_get item "id" ∈ seen_ids)) as [Hseen | Hunseen].
      * apply outcome_bind_returned in Hrun as (fixed' & Hrun' & [= <-]).
        by apply Hnew.
      * apply outcome_bind_returned in Hrun as (fixed' & Hrun' & [= <-]).
        destruct (kept_id_positive _ Hmissing) as (n & Hid & Hpos).
        assert (n ∈ valid_ids (item :: rest)) as Hvalid.
        { apply (valid_ids_elem _ item); [by left | done]. }
        destruct (IH _ _ _ Hrun' (Hrest next_id ltac:(lia)))
          as [Hnodup Hall].
        unfold ids_of in *. rewrite fmap_cons. split.
        -- constructor; [| done]. intros Hin.
           rewrite Forall_forall in Hall.
           destruct (Hall _ Hin) as (k & Hk & [(_ & _ & Hnot) | Hfresh]).
           ++ apply Hnot. apply elem_of_union. left.
              by apply elem_of_singleton.
           ++ rewrite Hid in Hk. inversion Hk; subst k.
              specialize (Hbelow _ Hvalid). lia.
        -- constructor.
           ++ exists n. split; [done |]. left. by repeat split.
           ++ eapply Forall_impl; [exact Hall |].
              intros v (k & -> & [(? & ? & Hnot) | ?]); exists k;
                (split; [done |]); [left | by right].
              repeat split; [done | by apply valid_ids_cons |].
              intros Hin. apply Hnot. apply elem_of_union. by right.
Qed.

Lemma valid_ids_below_next data :
  Forall (λ n, n < max_default 0 (valid_ids data) + 1) (valid_ids data).
Proof.
  apply Forall_forall. intros n Hn.
  pose proof (max_default_ge 0 _ _ Hn). lia.
Qed.

(** What the repair does guarantee: ids that are pairwise different. *)
Lemma fix_duplicate_ids_unique data fixed :
  _fix_duplicate_ids data = Returned fixed → NoDup (ids_of fixed).
Proof.
  destruct data as [|item rest]; [intros [= <-]; constructor |].
  intros Hrun. unfold _fix_duplicate_ids in Hrun.
  by destruct (fix_loop_ids _ _ _ _ Hrun (valid_ids_below_next _)).
Qed.

(** The ids are positive as soon as the greatest numeric id stored is
    not negative (or there is none). *)
Lemma fix_duplicate_ids_positive data fixed :
  _fix_duplicate_ids data = Returned fixed →
  0 ≤ max_default 0 (valid_ids data) →
  Forall (λ v, ∃ n, v = VInt n ∧ 0 < n) (ids_of fixed).
Proof.
  destruct data as [|item rest]; [intros [= <-]; constructor |].
  intros Hrun Hmax. unfold _fix_duplicate_ids in Hrun.
  destruct (fix_loop_ids _ _ _ _ Hrun (valid_ids_below_next _)) as [_ Hall].
  eapply Forall_impl; [exact Hall |].
  intros v (n & -> & [(? & _) | ?]); exists n; (split; [done | lia]).
Qed.

(** A record whose id is a positive integer that no earlier record has
    comes out of the repair unchanged, at the same index. *)
Lemma fix_loop_keeps data seen_ids next_id fixed i item n :
  fix_loop data seen_ids next_id = Returned fixed →
  data !! i = Some item →
  py_get item "id" = VInt n → 0 < n → VInt n ∉ seen_ids →
  (∀ j other, (j < i)%nat → data !! j = Some other →
              py_get other "id" ≠ VInt n) →
  fixed !! i = Some item.
Proof.
  revert seen_ids next_id fixed i.
  induction data as [|item0 rest IH];
    intros seen_ids next_id fixed i Hrun Hlookup Hid Hpos Hunseen Hfirst;
    [by inversion Hlookup |].
  simpl in Hrun.
  apply outcome_bind_returned in Hrun as (missing & Hmissing & Hrun).
  destruct i as [|i].
  - inversion Hlookup; subst item0. rewrite Hid in Hmissing, Hrun.
    rewrite decide_False in Hmissing by discriminate. simpl in Hmissing.
    inversion Hmissing; subst missing.
    replace (n <=? 0) with false in Hrun by (symmetry; by apply Z.leb_gt).
    rewrite decide_False in Hrun by done.
    by apply outcome_bind_returned in Hrun as (fixed' & _ & [= <-]).
  - assert (Hhead : py_get item0 "id" ≠ VInt n).
    { apply (Hfirst 0%nat); [lia | done]. }
    assert (Hlater : ∀ j other, (j < i)%nat → rest !! j = Some other →
                       py_get other "id" ≠ VInt n).
    { intros j other Hj Hother. apply (Hfirst (S j)); [lia | done]. }
    simpl in Hlookup.
    destruct missing; [| destruct (decide (py_get item0 "id" ∈ seen_ids))];
      apply outcome_bind_returned in Hrun as (fixed' & Hrun' & [= <-]);
      simpl; eapply IH; eauto.
    intros Hin. apply elem_of_union in Hin as [Hin | Hin]; [| done].
    apply elem_of_singleton in Hin. by apply Hhead.
Qed.

Lemma fix_duplicate_ids_keeps data fixed i item n :
  _fix_duplicate_ids data = Returned fixed →
  data !! i = Some item →
  py_get item "id" = VInt n → 0 < n →
  (∀ j other, (j < i)%nat → data !! j = Some other →
              py_get other "id" ≠ VInt n) →
  fixed !! i = Some item.
Proof.
  destruct data as [|item0 rest]; [by intros [= <-] |].
  intros Hrun. unfold _fix_duplicate_ids in Hrun.
  intros Hlookup Hid Hpos Hfirst.
  eapply fix_loop_keeps; eauto. apply not_elem_of_empty.
Qed.

(** The scenario of the specification: of two records with id 1, the
    first keeps it and the second gets id 2. *)
Lemma fix_duplicate_ids_scenario :
  _fix_duplicate_ids [ {[ "id" := VInt 1; "login" := VStr "a" ]};
                       {[ "id" := VInt 1; "login" := VStr "b" ]} ]
  = Returned [ {[ "id" := VInt 1; "login" := VStr "a" ]};
               {[ "id" := VInt 2; "login" := VStr "b" ]} ].
Proof. vm_compute. reflexivity. Qed.

(** C1.  The new ids start after the greatest numeric id of the file,
    negative ids included: a file whose only record has id -5 is
    repaired to id -4, which is not positive (the repair of that output
    would give it yet another id). *)
Theorem fix_duplicate_ids_negative_maximum :
  _fix_duplicate_ids [ {[ "id" := VInt (-5); "login" := VStr "a" ]} ]
  = Returned [ {[ "id" := VInt (-4); "login" := VStr "a" ]} ] ∧
  max_default 0 (valid_ids [ {[ "id" := VInt (-5); "login" := VStr "a" ]} ])
  = -5.
Proof. split; vm_compute; reflexivity. Qed.

(** ** The identity invariant *)

Section UniqueIds.
Context {T : Type} `{EntityLaws T}.

Lemma written_unique (self : JsonDataRepository T) data data' :
  written self data data' → NoDup (ids_of data) → NoDup (ids_of data').
Proof. intros Hw Hnodup. by rewrite (written_ids _ _ _ Hw). Qed.

Lemma validate_and_fix_unique (self : JsonDataRepository T) w w' :
  _validate_and_fix_data_on_load self w = (Returned tt, w') → unique_ids w'.
Proof.
  unfold _validate_and_fix_data_on_load, unique_ids.
  rewrite bind_run, read_raw_data_run, bind_run. unfold lift at 1.
  destruct (_fix_duplicate_ids (stored_records w)) as [fixed|] eqn:Hfix;
    [| discriminate].
  pose proof (fix_duplicate_ids_unique _ _ Hfix) as Hnodup.
  destruct (decide (fixed ≠ stored_records w)) as [Hchanged | Hsame].
  - rewrite bind_run.
    destruct (_write_data _ _ _) as [[[]|e] w1] eqn:Hwrite; [| discriminate].
    rewrite print_run. intros [= <-]. simpl.
    apply write_data_returned in Hwrite as (data' & Hwritten & ->).
    by apply (written_unique self fixed).
  - intros [= <-]. apply dec_stable in Hsame. by rewrite <- Hsame.
Qed.

(** Construction leaves a file without shared ids. *)
Lemma init_unique (sorting : bool) key w w' (self : JsonDataRepository T) :
  JsonDataRepository_init sorting key w = (Returned self, w') →
  unique_ids w'.
Proof.
  unfold JsonDataRepository_init. rewrite bind_run.
  destruct (_ensure_file_exists w) as [[[]|e] w0]; [| discriminate].
  rewrite bind_run.
  destruct (_validate_and_fix_data_on_load _ w0) as [[[]|e] w1] eqn:Hfix;
    [| discriminate].
  intros [= _ <-]. exact (validate_and_fix_unique _ _ _ Hfix).
Qed.

Lemma add_unique (self : JsonDataRepository T) (item item' : T) w w' :
  add self item w = (Returned item', w') → unique_ids w → unique_ids w'.
Proof.
  intros Hrun Hunique. pose proof (add_id_fresh _ _ _ _ _ Hrun) as Hfresh.
  apply add_returned in Hrun as (_ & _ & data' & Hwritten & Hfile).
  unfold unique_ids, stored_records at 1. rewrite Hfile.
  apply (written_unique self _ _ Hwritten).
  unfold ids_of. rewrite fmap_app. simpl. rewrite py_get_dict_id.
  apply NoDup_app. split; [done |]. split; [| apply NoDup_singleton].
  intros v Hv Hlast. apply list_elem_of_singleton in Hlast. by subst v.
Qed.

Lemma update_unique (self : JsonDataRepository T) (item : T) w w' :
  update self item w = (Returned tt, w') → unique_ids w → unique_ids w'.
Proof.
  unfold update, unique_ids. rewrite bind_run, read_data_run.
  destruct (list_find _ _) as [[i record]|] eqn:Hfind.
  - rewrite bind_run, print_run.
    intros Hwrite Hunique.
    apply write_data_returned in Hwrite as (data' & Hwritten & ->).
    apply (written_unique self _ _ Hwritten). simpl.
    apply list_find_Some in Hfind as (Hlookup & Hid & _).
    unfold ids_of. rewrite list_fmap_insert, py_get_dict_id, <- Hid.
    rewrite list_insert_id; [done |].
    by rewrite list_lookup_fmap, Hlookup.
  - rewrite bind_run, !print_run. by intros [= <-].
Qed.

Lemma delete_unique (self : JsonDataRepository T) (item : T) w w' :
  delete self item w = (Returned tt, w') → unique_ids w → unique_ids w'.
Proof.
  unfold delete, unique_ids. rewrite bind_run, read_data_run.
  case_decide; [discriminate |].
  intros Hwrite Hunique.
  apply write_data_returned in Hwrite as (data' & Hwritten & ->).
  apply (written_unique self _ _ Hwritten).
  clear -Hunique. induction (stored_records w) as [|record data IH];
    [constructor |].
  unfold ids_of in *. rewrite fmap_cons in Hunique.
  apply NoDup_cons in Hunique as [Hnotin Hunique].
  rewrite filter_cons. case_decide; [| by apply IH].
  rewrite fmap_cons. constructor; [| by apply IH].
  intros Hin. apply Hnotin.
  apply list_elem_of_fmap in Hin as (r & -> & Hr).
  apply list_elem_of_filter in Hr as [_ Hr].
  apply list_elem_of_fmap. eauto.
Qed.
End UniqueIds.

(** ** Placeholder ids *)

(** C5.  [add] replaces an id only when a stored record already has it.
    On a new repository the placeholder id 0 collides with nothing, so
    the user is stored under id 0: a stored id that is not positive. *)
Theorem add_persists_placeholder_id :
  (repo ← UserRepository_init; add repo anna) empty_world
  = (Returned anna,
     {| users_file := Holds [User_dict anna]; session_file := Absent;
        console := [] |}) ∧
  py_get (User_dict anna) "id" = VInt 0.
Proof. split; vm_compute; reflexivity. Qed.

(** ** Session round trip *)

Lemma find_by_own_id (data : list record) i record :
  NoDup (ids_of data) → data !! i = Some record →
  list_find (λ r, py_get r "id" = py_get record "id") data = Some (i, record).
Proof.
  intros Hnodup Hlookup. apply list_find_Some.
  split; [done |]. split; [done |].
  intros j other Hother Hlt Hsame.
  assert (j = i); [| lia].
  apply (NoDup_lookup _ _ _ (py_get record "id") Hnodup); unfold ids_of;
    rewrite list_lookup_fmap.
  - by rewrite Hother; simpl; rewrite Hsame.
  - by rewrite Hlookup.
Qed.

(** A [sign_in] that returns true has found a record with the login,
    decoded it to a user with the password, made that user current and
    written the user's id in the session file. *)
Lemma sign_in_success self login' password' w self' w' :
  sign_in self login' password' w = (Returned (true, self'), w') →
  ∃ i record u,
    stored_records w !! i = Some record ∧
    User_init record = Returned u ∧
    login u = VStr login' ∧ password u = VStr password' ∧
    self' = set_current_user self (Some u) ∧
    session_file w' = Holds {[ "user_id" := id u ]} ∧
    users_file w' = users_file w.
Proof.
  unfold sign_in, get_by_login. rewrite !bind_run, read_data_run.
  destruct (list_find _ _) as [[i record]|] eqn:Hfind.
  - rewrite bind_run. unfold lift at 1.
    destruct (User_init record) as [u|] eqn:Hu; [| discriminate].
    unfold mret at 1, M_ret at 1.
    destruct (decide (password u ≠ VStr password')) as [Hwrong | Hright].
    + rewrite bind_run, print_run. discriminate.
    + intros [= <- <-]. exists i, record, u.
      apply list_find_Some in Hfind as (Hlookup & Hlogin & _).
      apply dec_stable in Hright.
      apply User_init_returned in Hu as Hfields.
      destruct Hfields as (_ & _ & Hl & _).
      unfold py_get in Hlogin. rewrite Hl in Hlogin.
      by repeat split.
  - unfold mret at 1, M_ret at 1. rewrite bind_run, print_run. discriminate.
Qed.

(** A new service restores the user of the session file when the id in
    it is true in a condition and finds that user in the repository. *)
Lemma load_session_restores repo u i record w :
  session_file w = Holds {[ "user_id" := id u ]} →
  truthy (id u) = true →
  list_find (λ r, py_get r "id" = id u) (stored_records w)
    = Some (i, record) →
  User_init record = Returned u →
  ∃ w', FileAuthService_init repo w
        = (Returned {| user_repository := repo; _current_user := Some u |},
           w') ∧
        users_file w' = users_file w ∧ session_file w' = session_file w.
Proof.
  intros Hsession Htruthy Hfind Hu.
  unfold FileAuthService_init, _load_session, try_except.
  assert (py_get {[ "user_id" := id u ]} "user_id" = id u) as Hget.
  { unfold py_get. by rewrite lookup_singleton_eq. }
  rewrite bind_run. unfold get_session_file at 1. rewrite Hsession.
  cbv zeta. rewrite !Hget, Htruthy.
  rewrite bind_run. unfold get_by_id.
  rewrite bind_run, read_data_run, Hfind, bind_run. unfold lift at 1.
  change (data_class record) with (User_init record). rewrite Hu.
  unfold mret at 1, M_ret at 1. rewrite bind_run, print_run.
  eexists. split; [reflexivity |]. by rewrite Hsession.
Qed.

(** [sign_out] makes the service anonymous and removes the session
    file; a service constructed afterwards is anonymous. *)
Lemma sign_out_anonymous self w :
  ∃ w', sign_out self w = (Returned (set_current_user self None), w') ∧
        session_file w' = Absent ∧
        ∀ repo, FileAuthService_init repo w'
                = (Returned {| user_repository := repo;
                               _current_user := None |}, w').
Proof.
  assert (Hclear : ∀ w0, ∃ w', _clear_session w0 = (Returned tt, w') ∧
                               session_file w' = Absent).
  { intros w0. unfold _clear_session. rewrite bind_run.
    unfold get_session_file at 1.
    destruct (session_file w0) eqn:Hs; eexists; (split; [reflexivity |]);
      done. }
  assert (Hinit : ∀ w', session_file w' = Absent →
            ∀ repo, FileAuthService_init repo w'
                    = (Returned {| user_repository := repo;
                                   _current_user := None |}, w')).
  { intros w' Habsent repo.
    unfold FileAuthService_init, _load_session, try_except.
    rewrite bind_run. unfold get_session_file at 1. by rewrite Habsent. }
  unfold sign_out. rewrite bind_run.
  destruct self as [repo [u|]]; simpl.
  - rewrite bind_run.
    destruct (Hclear {| users_file := users_file w;
                        session_file := session_file w;
                        console := (console w ++ [MsgGoodbye (name u)])%list |})
      as (w' & -> & Habsent).
    exists w'. split; [done |]. split; [done | by apply Hinit].
  - rewrite bind_run.
    destruct (Hclear w) as (w' & -> & Habsent).
    exists w'. split; [done |]. split; [done | by apply Hinit].
Qed.

(** The round trip, where it holds: the stored ids are pairwise
    different and the id of the user signed in is true in a condition
    (an integer other than 0). *)
Lemma session_round_trip self login' password' w self' w' :
  sign_in self login' password' w = (Returned (true, self'), w') →
  unique_ids w →
  ∃ u, current_user self' = Some u ∧ is_authorized self' = true ∧
       login u = VStr login' ∧
       (truthy (id u) = true →
        ∃ w'', FileAuthService_init (user_repository self) w'
               = (Returned self', w'')).
Proof.
  intros Hrun Hunique.
  apply sign_in_success in Hrun
    as (i & record & u & Hlookup & Hu & Hlogin & _ & -> & Hsession & Hfile).
  exists u. split; [done |]. split; [done |]. split; [done |].
  intros Htruthy.
  apply User_init_returned in Hu as Hfields.
  destruct Hfields as (Hid & _).
  assert (py_get record "id" = id u) as Hrid.
  { unfold py_get. by rewrite Hid. }
  pose proof (find_by_own_id _ _ _ Hunique Hlookup) as Hfind.
  rewrite Hrid in Hfind.
  assert (stored_records w' = stored_records w) as Hstored.
  { unfold stored_records. by rewrite Hfile. }
  rewrite <- Hstored in Hfind.
  destruct (load_session_restores (user_repository self) u i record w'
              Hsession Htruthy Hfind Hu) as (w'' & Hinit & _).
  exists w''. by destruct self.
Qed.

(** C8.  The session file keeps the id of the user and a new service
    restores the user only if that id is true in a condition.  A user
    stored under id 0, as [add] leaves a placeholder id, signs in, but
    the service constructed next over the same files is anonymous. *)
Theorem session_of_id_zero_not_restored :
  ∃ w', sign_in (service_of None) "anna" "pass" (world_of [User_dict anna])
        = (Returned (true, service_of (Some anna)), w') ∧
        session_file w' = Holds {[ "user_id" := VInt 0 ]} ∧
        ∃ w'', FileAuthService_init user_repository_object w'
               = (Returned (service_of None), w'') ∧
               is_authorized (service_of None) = false.
Proof.
  eexists. split; [vm_compute; reflexivity |].
  split; [vm_compute; reflexivity |].
  eexists. split; vm_compute; reflexivity.
Qed.

(** * Further properties *)

(** ** Identity repair: shape, fixed points and errors *)

Lemma mixed_ids_run : _fix_duplicate_ids mixed_ids = Returned mixed_ids_fixed.
Proof. vm_compute. reflexivity. Qed.






(** X3.  A record whose id is a positive integer that no earlier record
    of the file has keeps its place and all its entries. *)
Theorem repair_keeps_first_positive_id data fixed i item n :
  _fix_duplicate_ids data = Returned fixed →
  data !! i = Some item →
  py_get item "id" = VInt n → 0 < n →
  (∀ j other, (j < i)%nat → data !! j = Some other →
              py_get other "id" ≠ VInt n) →
  fixed !! i = Some item.
Proof. apply fix_duplicate_ids_keeps. Qed.

Lemma repair_keeps_first_positive_id_witness :
  mixed_ids_fixed !! 3%nat
  = Some ({[ "id" := VInt 7; "login" := VStr "d" ]} : record).
Proof.
  apply (repair_keeps_first_positive_id mixed_ids mixed_ids_fixed 3
           _ 7 mixed_ids_run).
  - reflexivity.
  - vm_compute. reflexivity.
  - lia.
  - intros j other Hj Hother.
    destruct j as [|[|[|j]]]; [| | | lia];
      inversion Hother; subst other; vm_compute; discriminate.
Defined.

Lemma fix_loop_cons item rest seen_ids next_id :
  fix_loop (item :: rest) seen_ids next_id
  = (missing ← (if decide (py_get item "id" = VNone) then Returned true
                else py_le_int (py_get item "id") 0);
     if (missing : bool) then
       fixed ← fix_loop rest seen_ids (next_id + 1);
       mret (<["id" := VInt next_id]> item :: fixed)
     else if decide (py_get item "id" ∈ seen_ids) then
       fixed ← fix_loop rest seen_ids (next_id + 1);
       mret (<["id" := VInt next_id]> item :: fixed)
     else
       fixed ← fix_loop rest ({[py_get item "id"]} ∪ seen_ids) next_id;
       mret (item :: fixed)).
Proof. reflexivity. Qed.

Lemma fix_loop_clean data seen_ids next_id :
  clean_ids data →
  (∀ v, v ∈ ids_of data → v ∉ seen_ids) →
  fix_loop data seen_ids next_id = Returned data.
Proof.
  revert seen_ids. unfold clean_ids, ids_of.
  induction data as [|item rest IH]; intros seen_ids [Hnodup Hpos] Hunseen;
    [done |].
  rewrite fmap_cons in Hnodup, Hpos, Hunseen.
  apply NoDup_cons in Hnodup as [Hnotin Hnodup].
  apply Forall_cons in Hpos as [(n & Hid & Hn) Hpos].
  rewrite fix_loop_cons, Hid.
  rewrite (decide_False (P := VInt n = VNone)) by discriminate.
  unfold py_le_int.
  replace (n <=? 0) with false by (symmetry; by apply Z.leb_gt).
  cbn [mbind outcome_bind]. rewrite decide_False.
  - rewrite IH; [done | done |].
    intros v Hv Hin. apply elem_of_union in Hin as [Hin | Hin].
    + apply elem_of_singleton in Hin. subst v. by rewrite Hid in Hnotin.
    + apply (Hunseen v); [by right | done].
  - rewrite <- Hid. apply Hunseen. by left.
Qed.

Lemma fix_duplicate_ids_clean data :
  clean_ids data → _fix_duplicate_ids data = Returned data.
Proof.
  intros Hclean. destruct data as [|item rest]; [done |].
  unfold _fix_duplicate_ids. apply fix_loop_clean; [done |].
  intros v _. apply not_elem_of_empty.
Qed.

(** X4.  Records whose ids are positive integers, pairwise different,
    are a fixed point of the repair: it returns them as they are, and
    so does a second repair of what a first one returned with positive
    ids. *)
Theorem repair_leaves_clean_ids data :
  (clean_ids data → _fix_duplicate_ids data = Returned data) ∧
  (∀ fixed, _fix_duplicate_ids data = Returned fixed →
            0 ≤ max_default 0 (valid_ids data) →
            _fix_duplicate_ids fixed = Returned fixed).
Proof.
  split; [apply fix_duplicate_ids_clean |].
  intros fixed Hrun Hmax. apply fix_duplicate_ids_clean. split.
  - by eapply fix_duplicate_ids_unique.
  - by eapply fix_duplicate_ids_positive.
Qed.

Lemma repair_leaves_clean_ids_witness :
  _fix_duplicate_ids mixed_ids_fixed = Returned mixed_ids_fixed.
Proof.
  apply (proj1 (repair_leaves_clean_ids mixed_ids_fixed)). split.
  - apply (bool_decide_unpack _). vm_compute. exact I.
  - repeat constructor; eexists; (split; [vm_compute; reflexivity | lia]).
Defined.

Lemma fix_loop_string_id data seen_ids next_id :
  (Exists string_id data → fix_loop data seen_ids next_id = Raised TypeError) ∧
  (¬ Exists string_id data →
   ∃ fixed, fix_loop data seen_ids next_id = Returned fixed).
Proof.
  revert seen_ids next_id.
  induction data as [|item rest IH]; intros seen_ids next_id.
  - split; [by inversion 1 | by exists []].
  - rewrite fix_loop_cons. destruct (py_get item "id") as [|n|s] eqn:Hid.
    + rewrite (decide_True (P := VNone = VNone)) by done.
      cbn [mbind outcome_bind].
      destruct (IH seen_ids (next_id + 1)) as [Hraise Hreturn]. split.
      * intros Hex. apply Exists_cons in Hex as [(s & Hs) | Hex];
          [congruence |]. by rewrite (Hraise Hex).
      * intros Hno. destruct Hreturn as [fixed ->]; [| by eexists].
        intros Hex. apply Hno. by right.
    + rewrite (decide_False (P := VInt n = VNone)) by discriminate.
      unfold py_le_int. cbn [mbind outcome_bind].
      assert (Hany : ∀ seen' next',
                (Exists string_id (item :: rest) →
                 (fix_loop rest seen' next' ≫= λ fixed,
                    mret (<["id" := VInt next_id]> item :: fixed))
                 = Raised TypeError ∧
                 (fix_loop rest seen' next' ≫= λ fixed,
                    mret (item :: fixed)) = Raised TypeError) ∧
                (¬ Exists string_id (item :: rest) →
                 ∃ fixed, fix_loop rest seen' next' = Returned fixed)).
      { intros seen' next'. destruct (IH seen' next') as [Hraise Hreturn].
        split.
        - intros Hex. apply Exists_cons in Hex as [(s & Hs) | Hex];
            [congruence |]. by rewrite (Hraise Hex).
        - intros Hno. apply Hreturn. intros Hex. apply Hno. by right. }
      split.
      * intros Hex.
        destruct (n <=? 0); [apply (Hany seen_ids (next_id + 1)), Hex |].
        destruct (decide (VInt n ∈ seen_ids)).
        -- apply (Hany seen_ids (next_id + 1)), Hex.
        -- apply (Hany ({[VInt n]} ∪ seen_ids) next_id), Hex.
      * intros Hno.
        destruct (n <=? 0).
        { destruct (Hany seen_ids (next_id + 1)) as [_ Hret].
          destruct (Hret Hno) as [fixed ->]. by eexists. }
        destruct (decide (VInt n ∈ seen_ids)).
        { destruct (Hany seen_ids (next_id + 1)) as [_ Hret].
          destruct (Hret Hno) as [fixed ->]. by eexists. }
        destruct (Hany ({[VInt n]} ∪ seen_ids) next_id) as [_ Hret].
        destruct (Hret Hno) as [fixed ->]. by eexists.
    + rewrite (decide_False (P := VStr s = VNone)) by discriminate.
      unfold py_le_int. cbn [mbind outcome_bind]. split; [done |].
      intros Hno. exfalso. apply Hno. left. by exists s.
Qed.

(** X5.  The repair raises exactly when some record has a string under
    "id" (the comparison with 0 fails), and then with [TypeError];
    otherwise it returns. *)
Theorem repair_raises_on_string_id data :
  (Exists string_id data → _fix_duplicate_ids data = Raised TypeError) ∧
  (¬ Exists string_id data → ∃ fixed, _fix_duplicate_ids data = Returned fixed).
Proof.
  destruct data as [|item rest].
  - split; [by inversion 1 | by exists []].
  - unfold _fix_duplicate_ids. apply fix_loop_string_id.
Qed.

Lemma repair_raises_on_string_id_witness :
  _fix_duplicate_ids [ {[ "id" := VInt 1 ]}; {[ "id" := VStr "2" ]} ]
  = Raised TypeError.
Proof.
  apply repair_raises_on_string_id. right. left. exists "2".
  vm_compute. reflexivity.
Defined.

(** ** Sorting: order, stability and errors *)

Lemma py_lt_asym a b : py_lt a b = Returned true → py_lt b a = Returned false.
Proof.
  destruct a as [|m|s], b as [|n|t]; try discriminate; simpl; intros [= Hlt].
  - f_equal. apply Z.ltb_lt in Hlt. apply Z.ltb_ge. lia.
  - f_equal. unfold String.ltb in *. rewrite String.compare_antisym.
    by destruct (String.compare s t).
Qed.

Lemma py_lt_irrefl a b : py_lt a b = Returned true → a ≠ b.
Proof.
  intros Hlt <-. pose proof (py_lt_asym _ _ Hlt). congruence.
Qed.

Section SortedFacts.
Context {T : Type} (key : T → value).

Lemma insert_sorted_head x l l' y :
  insert_sorted key x l = Returned l' →
  not_after (key y) (key x) → HdRel (λ a b, not_after (key a) (key b)) y l →
  HdRel (λ a b, not_after (key a) (key b)) y l'.
Proof.
  destruct l as [|z l]; simpl; intros Hrun Hyx Hyl.
  - inversion Hrun. by constructor.
  - apply outcome_bind_returned in Hrun as (b & _ & Hrun). destruct b.
    + apply outcome_bind_returned in Hrun as (r & _ & [= <-]).
      constructor. by inversion Hyl.
    + inversion Hrun. by constructor.
Qed.

Lemma insert_sorted_Sorted x l l' :
  insert_sorted key x l = Returned l' →
  Sorted (λ a b, not_after (key a) (key b)) l →
  Sorted (λ a b, not_after (key a) (key b)) l'.
Proof.
  revert l'. induction l as [|y l IH]; simpl; intros l' Hrun Hsorted.
  - inversion Hrun. by repeat constructor.
  - apply outcome_bind_returned in Hrun as (b & Hlt & Hrun).
    apply Sorted_inv in Hsorted as [Hsorted Hhd]. destruct b.
    + apply outcome_bind_returned in Hrun as (r & Hr & [= <-]).
      constructor; [by apply IH |].
      eapply insert_sorted_head; [exact Hr | | done].
      by apply py_lt_asym.
    + inversion Hrun. constructor; [by constructor |]. by constructor.
Qed.

Lemma insert_sorted_filter x l l' k :
  insert_sorted key x l = Returned l' →
  filter (λ a, key a = k) l' = filter (λ a, key a = k) (x :: l).
Proof.
  revert l'. induction l as [|y l IH]; simpl; intros l' Hrun.
  - by inversion Hrun.
  - apply outcome_bind_returned in Hrun as (b & Hlt & Hrun). destruct b.
    + apply outcome_bind_returned in Hrun as (r & Hr & [= <-]).
      apply py_lt_irrefl in Hlt.
      rewrite (filter_cons _ y), (IH _ Hr), !filter_cons.
      destruct (decide (key x = k)) as [Hx|]; [| done].
      destruct (decide (key y = k)) as [Hy|]; [congruence | done].
    + by inversion Hrun.
Qed.

Lemma sorted_Sorted_stable l l' :
  sorted key l = Returned l' →
  Sorted (λ a b, not_after (key a) (key b)) l' ∧
  ∀ k, filter (λ a, key a = k) l' = filter (λ a, key a = k) l.
Proof.
  revert l'. induction l as [|x l IH]; simpl; intros l' Hrun.
  - inversion Hrun. split; [constructor | done].
  - apply outcome_bind_returned in Hrun as (s & Hs & Hrun).
    destruct (IH _ Hs) as [Hsorted Hstable]. split.
    + by eapply insert_sorted_Sorted.
    + intros k. rewrite (insert_sorted_filter _ _ _ k Hrun).
      by rewrite !filter_cons, Hstable.
Qed.

(** X6.  [sorted], when it returns, returns a stable sort of its
    argument: the same items, no item followed by one that compares
    less, and items of equal key in the order they had. *)
Theorem sorted_is_stable_sort l l' :
  sorted key l = Returned l' →
  l' ≡ₚ l ∧
  Sorted (λ a b, not_after (key a) (key b)) l' ∧
  ∀ k, filter (λ a, key a = k) l' = filter (λ a, key a = k) l.
Proof.
  intros Hrun. split; [exact (sorted_perm key _ _ Hrun) |].
  by apply sorted_Sorted_stable.
Qed.




End SortedFacts.

Lemma sorted_is_stable_sort_witness :
  sorted name [maria; ivan; maria_twin] = Returned [ivan; maria_twin; maria] ∧
  Sorted (λ a b, not_after (name a) (name b)) [ivan; maria_twin; maria].
Proof.
  assert (Hrun : sorted name [maria; ivan; maria_twin]
                 = Returned [ivan; maria_twin; maria])
    by (vm_compute; reflexivity).
  split; [exact Hrun |].
  exact (proj1 (proj2 (sorted_is_stable_sort name _ _ Hrun))).
Defined.

(** ** What the repository writes, and what it leaves alone *)

Lemma written_sorted_by_name data data' :
  written user_repository_object data data' → sorted_by_name data'.
Proof.
  unfold written. simpl.
  intros (items & sorted_items & _ & Hsorted & ->).
  destruct (sorted_Sorted_stable name _ _ Hsorted) as (Hord & _).
  unfold sorted_by_name.
  eapply (Sorted_fmap (A := User) User_dict); [| exact Hord].
  intros u v Huv. unfold py_get, User_dict. by simplify_map_eq.
Qed.

(** X8.  After an [add] or a [delete] of a [UserRepository] that
    returns, the records of the file are in the order of their names:
    no record is followed by one whose name compares less. *)
Theorem user_file_sorted_by_name (item : User) (w w' : world) :
  (∀ item', add user_repository_object item w = (Returned item', w') →
            sorted_by_name (stored_records w')) ∧
  (delete user_repository_object item w = (Returned tt, w') →
   sorted_by_name (stored_records w')).
Proof.
  split.
  - intros item' Hrun.
    apply add_returned in Hrun as (_ & _ & data' & Hwritten & Hfile).
    unfold stored_records. rewrite Hfile.
    by eapply written_sorted_by_name.
  - unfold delete. rewrite bind_run, read_data_run.
    case_decide; [discriminate |]. intros Hwrite.
    apply write_data_returned in Hwrite as (data' & Hwritten & ->).
    by eapply written_sorted_by_name.
Qed.

Lemma user_file_sorted_by_name_witness :
  sorted_by_name (stored_records world_after_add).
Proof.
  exact (proj1 (user_file_sorted_by_name maria_twin
                  (world_of [User_dict maria; User_dict ivan])
                  world_after_add) maria_twin_4 add_maria_twin_run).
Defined.

Lemma write_data_files {T} `{Entity T} (self : JsonDataRepository T)
    data w o w' :
  _write_data self data w = (o, w') →
  session_file w' = session_file w ∧
  (∀ e, o = Raised e → users_file w' = users_file w).
Proof.
  intros Hrun. destruct o as [[]|e].
  - unfold _write_data in Hrun. destruct (sort_key self) as [key|].
    + rewrite !bind_run in Hrun. unfold lift at 1 in Hrun.
      destruct (map_outcome data_class data) as [items|]; [| discriminate].
      rewrite bind_run in Hrun. unfold lift at 1 in Hrun.
      destruct (sorted key items); [| discriminate].
      inversion Hrun. by split.
    + inversion Hrun. by split.
  - apply write_data_raised in Hrun. subst w'. by split.
Qed.



(** ** Construction of a repository *)

Lemma ensure_file_exists_run w :
  _ensure_file_exists w
  = (Returned tt,
     match users_file w with
     | Absent => with_users_file w []
     | _ => w
     end).
Proof.
  unfold _ensure_file_exists. rewrite bind_run.
  unfold get_users_file at 1. by destruct (users_file w).
Qed.

(** X10.  A construction that returns leaves a repository file that
    exists and in which no two records share an id; it returns the
    object with the configuration given and does not touch the session
    file. *)
Theorem init_establishes_unique_ids {T} `{EntityLaws T}
    (sorting : bool) (key : option (T → value)) (w w' : world)
    (self : JsonDataRepository T) :
  JsonDataRepository_init sorting key w = (Returned self, w') →
  unique_ids w' ∧ users_file w' ≠ Absent ∧
  session_file w' = session_file w ∧
  self = repository_object sorting key.
Proof.
  intros Hrun. pose proof (init_unique _ _ _ _ _ Hrun) as Hunique.
  unfold JsonDataRepository_init in Hrun.
  rewrite bind_run, ensure_file_exists_run, bind_run in Hrun.
  set (w0 := match users_file w with
             | Absent => with_users_file w []
             | _ => w
             end) in Hrun.
  assert (users_file w0 ≠ Absent ∧ session_file w0 = session_file w)
    as [Hexists Hsession].
  { unfold w0. destruct (users_file w) eqn:Hfile; simpl; by rewrite ?Hfile. }
  destruct (_validate_and_fix_data_on_load _ w0) as [[[]|e] w1] eqn:Hfix;
    [| discriminate].
  inversion Hrun; subst self w1; clear Hrun.
  split; [done |]. split; [| split; [| done]].
  - unfold _validate_and_fix_data_on_load in Hfix.
    rewrite bind_run, read_raw_data_run, bind_run in Hfix.
    unfold lift at 1 in Hfix.
    destruct (_fix_duplicate_ids _) as [fixed|]; [| discriminate].
    case_decide.
    + rewrite bind_run in Hfix.
      destruct (_write_data _ _ _) as [[[]|e] w1] eqn:Hwrite;
        [| discriminate].
      apply write_data_returned in Hwrite as (data' & _ & ->).
      rewrite print_run in Hfix. by inversion Hfix.
    + by inversion Hfix.
  - unfold _validate_and_fix_data_on_load in Hfix.
    rewrite bind_run, read_raw_data_run, bind_run in Hfix.
    unfold lift at 1 in Hfix.
    destruct (_fix_duplicate_ids _) as [fixed|]; [| discriminate].
    case_decide.
    + rewrite bind_run in Hfix.
      destruct (_write_data _ _ _) as [[[]|e] w1] eqn:Hwrite;
        [| discriminate].
      apply write_data_returned in Hwrite as (data' & _ & ->).
      rewrite print_run in Hfix. by inversion Hfix.
    + by inversion Hfix.
Qed.

Lemma init_establishes_unique_ids_witness :
  UserRepository_init
    (world_of [User_dict maria; User_dict maria_twin; User_dict ivan])
  = (Returned user_repository_object,
     {| users_file :=
          Holds [User_dict ivan; User_dict maria_twin_4; User_dict maria];
        session_file := Absent; console := [MsgFileFixed] |}) ∧
  NoDup (ids_of [User_dict ivan; User_dict maria_twin_4; User_dict maria]).
Proof.
  assert (Hrun : UserRepository_init
            (world_of [User_dict maria; User_dict maria_twin; User_dict ivan])
          = (Returned user_repository_object,
             {| users_file :=
                  Holds [User_dict ivan; User_dict maria_twin_4;
                         User_dict maria];
                session_file := Absent; console := [MsgFileFixed] |}))
    by (vm_compute; reflexivity).
  split; [exact Hrun |].
  exact (proj1 (init_establishes_unique_ids true (Some name) _ _ _ Hrun)).
Defined.

(** X11.  Constructing a repository over a missing file creates the
    file with an empty list.  Over a file that exists and whose ids
    are clean (positive integers, pairwise different; an unreadable
    file counts as empty) it writes and prints nothing: the world is
    as before. *)
Theorem init_creates_or_keeps_file {T} `{Entity T}
    (sorting : bool) (key : option (T → value)) (w : world) :
  (users_file w = Absent →
   JsonDataRepository_init sorting key w
   = (Returned (repository_object sorting key), with_users_file w [])) ∧
  (users_file w ≠ Absent → clean_ids (stored_records w) →
   JsonDataRepository_init sorting key w
   = (Returned (repository_object sorting key), w)).
Proof.
  unfold JsonDataRepository_init.
  rewrite bind_run, ensure_file_exists_run, bind_run.
  unfold _validate_and_fix_data_on_load.
  split.
  - intros Habsent. rewrite Habsent.
    rewrite bind_run, read_raw_data_run, bind_run. unfold lift at 1.
    change (stored_records (with_users_file w [])) with (@nil record).
    change (_fix_duplicate_ids []) with (Returned (@nil record)).
    lazy beta iota. by rewrite decide_False by (by intros []).
  - intros Hexists Hclean.
    assert (match users_file w with
            | Absent => with_users_file w []
            | _ => w
            end = w) as -> by (by destruct (users_file w)).
    rewrite bind_run, read_raw_data_run, bind_run. unfold lift at 1.
    rewrite (fix_duplicate_ids_clean _ Hclean).
    lazy beta iota. by rewrite decide_False by (by intros []).
Qed.

Lemma init_creates_or_keeps_file_witness :
  UserRepository_init empty_world
  = (Returned user_repository_object, with_users_file empty_world []).
Proof.
  exact (proj1 (init_creates_or_keeps_file true (Some name) empty_world)
           eq_refl).
Defined.

(** ** How the operations compose *)

Lemma user_update_unique (self : UserRepository) (item item' : User) w w' :
  User_update self item w = (Returned item', w') →
  unique_ids w → unique_ids w'.
Proof.
  unfold User_update, unique_ids. rewrite bind_run, read_data_run.
  destruct (list_find _ _) as [[i record]|] eqn:Hfind.
  - rewrite bind_run, print_run, bind_run.
    destruct (_write_data _ _ _) as [[[]|e] w1] eqn:Hwrite; [| discriminate].
    intros [= _ <-] Hunique.
    apply write_data_returned in Hwrite as (data' & Hwritten & ->).
    apply (written_unique self _ _ Hwritten).
    change (stored_records (with_users_file _ data')) with data' in *.
    apply list_find_Some in Hfind as (Hlookup & Hid & _).
    unfold ids_of. rewrite list_fmap_insert, py_get_dict_id.
    change (get_id item) with (id item). rewrite <- Hid.
    rewrite list_insert_id; [done |].
    by rewrite list_lookup_fmap, Hlookup.
  - destruct (list_find (λ record, py_get record "login" = login item) _)
      as [[i record]|] eqn:Hlogin.
    + rewrite bind_run, print_run, bind_run.
      destruct (_write_data _ _ _) as [[[]|e] w1] eqn:Hwrite; [| discriminate].
      intros [= _ <-] Hunique.
      apply write_data_returned in Hwrite as (data' & Hwritten & ->).
      apply (written_unique self _ _ Hwritten).
      apply list_find_Some in Hlogin as (Hlookup & _).
      unfold ids_of. rewrite list_fmap_insert, py_get_dict_id.
      change (get_id (User_set_id ?v item)) with v.
      rewrite list_insert_id; [done |].
      by rewrite list_lookup_fmap, Hlookup.
    + rewrite bind_run, print_run. by intros [= _ <-].
Qed.

(** X12.  No operation of the repository introduces a shared id: if no
    two stored records share an id before an [add], an [update], a
    [delete] or a [UserRepository.update] that returns, none do after
    it. *)
Theorem operations_keep_unique_ids (self : UserRepository)
    (item : User) (w w' : world) :
  unique_ids w →
  (∀ item', add self item w = (Returned item', w') → unique_ids w') ∧
  (update self item w = (Returned tt, w') → unique_ids w') ∧
  (delete self item w = (Returned tt, w') → unique_ids w') ∧
  (∀ item', User_update self item w = (Returned item', w') → unique_ids w').
Proof.
  intros Hunique. repeat split.
  - intros item' Hrun. by eapply add_unique.
  - intros Hrun. by eapply update_unique.
  - intros Hrun. by eapply delete_unique.
  - intros item' Hrun. by eapply user_update_unique.
Qed.

Lemma operations_keep_unique_ids_witness :
  unique_ids (world_of [User_dict maria; User_dict ivan]) ∧
  unique_ids world_after_add.
Proof.
  assert (Hunique : unique_ids (world_of [User_dict maria; User_dict ivan])).
  { apply (bool_decide_unpack _). vm_compute. exact I. }
  split; [exact Hunique |].
  exact (proj1 (operations_keep_unique_ids user_repository_object maria_twin
                  _ world_after_add Hunique) maria_twin_4 add_maria_twin_run).
Defined.

(** X13.  An [add] that returns appends exactly one record: the ids
    stored afterwards are the ids stored before and the id the entity
    now has, and no stored record had that id. *)
Theorem add_appends_one_record {T} `{EntityLaws T}
    (self : JsonDataRepository T) (item item' : T) (w w' : world) :
  add self item w = (Returned item', w') →
  ids_of (stored_records w') ≡ₚ ids_of (stored_records w) ++ [get_id item'] ∧
  length (stored_records w') = S (length (stored_records w)) ∧
  get_id item' ∉ ids_of (stored_records w).
Proof.
  intros Hrun. pose proof (add_id_fresh _ _ _ _ _ Hrun) as Hfresh.
  apply add_returned in Hrun as (_ & _ & data' & Hwritten & Hfile).
  unfold stored_records at 1 3. rewrite Hfile.
  pose proof (written_ids _ _ _ Hwritten) as Hids.
  pose proof (written_length _ _ _ Hwritten) as Hlen.
  unfold ids_of in Hids. rewrite fmap_app in Hids. simpl in Hids.
  rewrite py_get_dict_id in Hids. rewrite length_app in Hlen. simpl in Hlen.
  split; [done |]. split; [lia | done].
Qed.

Lemma add_appends_one_record_witness :
  length (stored_records world_after_add)
  = S (length (stored_records (world_of [User_dict maria; User_dict ivan]))).
Proof.
  exact (proj1 (proj2 (add_appends_one_record user_repository_object
                         maria_twin maria_twin_4 _ _ add_maria_twin_run))).
Defined.

(** X14.  [get_by_id] never changes the world.  It returns [None] when
    no stored record has the id, and an entity it returns is the
    decoding of a stored record and has the id asked for. *)
Theorem get_by_id_returns_requested_id {T} `{EntityLaws T}
    (id' : value) (w : world) :
  (Forall (λ record, py_get record "id" ≠ id') (stored_records w) →
   get_by_id (T := T) id' w = (Returned None, w)) ∧
  (∀ o w', get_by_id (T := T) id' w = (o, w') →
     w' = w ∧
     ∀ x, o = Returned (Some x) →
          get_id x = id' ∧
          ∃ record, record ∈ stored_records w ∧ data_class record = Returned x).
Proof.
  unfold get_by_id. rewrite bind_run, read_data_run. split.
  - intros Hnone. by rewrite (list_find_key_None _ _ _ Hnone).
  - intros o w'. destruct (list_find _ _) as [[i record]|] eqn:Hfind.
    + rewrite bind_run. unfold lift at 1.
      apply list_find_Some in Hfind as (Hlookup & Hid & _).
      destruct (data_class record) as [x|e] eqn:Hx.
      * intros [= <- <-]. split; [done |]. intros y [= <-].
        split; [by rewrite <- (class_id _ _ Hx) |].
        exists record. split; [by eapply list_elem_of_lookup_2 | done].
      * intros [= <- <-]. split; [done |]. discriminate.
    + intros [= <- <-]. split; [done |]. discriminate.
Qed.

Lemma get_by_id_returns_requested_id_witness :
  get_by_id (T := User) (VInt 9) (world_of [User_dict maria; User_dict ivan])
  = (Returned None, world_of [User_dict maria; User_dict ivan]).
Proof.
  apply (proj1 (get_by_id_returns_requested_id (T := User) (VInt 9)
                  (world_of [User_dict maria; User_dict ivan]))).
  repeat constructor; vm_compute; discriminate.
Defined.

(** X15.  After a [delete] that returns, [get_by_id] with the id of the
    deleted entity returns [None]. *)
Theorem delete_then_get_by_id {T} `{EntityLaws T}
    (self : JsonDataRepository T) (item : T) (w w' : world) :
  delete self item w = (Returned tt, w') →
  get_by_id (T := T) (get_id item) w' = (Returned None, w').
Proof.
  unfold delete. rewrite bind_run, read_data_run.
  case_decide; [discriminate |]. intros Hwrite.
  apply write_data_returned in Hwrite as (data' & Hwritten & ->).
  unfold get_by_id. rewrite bind_run, read_data_run.
  change (stored_records (with_users_file w data')) with data'.
  rewrite list_find_key_None; [done |].
  apply Forall_forall. intros record Hin Heq.
  assert (get_id item ∈ ids_of data') as Hmem.
  { rewrite <- Heq. unfold ids_of. apply list_elem_of_fmap. eauto. }
  rewrite (written_ids _ _ _ Hwritten) in Hmem.
  apply list_elem_of_fmap in Hmem as (r & Hr & Hrin).
  apply list_elem_of_filter in Hrin as [Hne _]. by apply Hne.
Qed.

Lemma delete_ivan_run :
  delete user_repository_object ivan
    (world_of [User_dict maria; User_dict ivan])
  = (Returned tt, world_after_delete).
Proof. vm_compute. reflexivity. Qed.

Lemma delete_then_get_by_id_witness :
  delete user_repository_object ivan
    (world_of [User_dict maria; User_dict ivan])
  = (Returned tt, world_after_delete) ∧
  get_by_id (T := User) (VInt 3) world_after_delete
  = (Returned None, world_after_delete).
Proof.
  split; [exact delete_ivan_run |].
  exact (delete_then_get_by_id user_repository_object ivan _ _
           delete_ivan_run).
Defined.

Lemma same_id_same_record (data : list record) r1 r2 :
  NoDup (ids_of data) → r1 ∈ data → r2 ∈ data →
  py_get r1 "id" = py_get r2 "id" → r1 = r2.
Proof.
  intros Hnodup Hin1 Hin2 Hid.
  apply list_elem_of_lookup in Hin1 as [i Hi].
  apply list_elem_of_lookup in Hin2 as [j Hj].
  assert (i = j) as ->; [| congruence].
  apply (NoDup_lookup _ _ _ (py_get r1 "id") Hnodup); unfold ids_of;
    rewrite list_lookup_fmap.
  - by rewrite Hi.
  - by rewrite Hj; simpl; rewrite Hid.
Qed.

(** X16.  When no two stored records share an id and some record has
    the id of the entity, an [update] that returns is read back:
    [get_by_id] with that id returns the entity as updated. *)
Theorem update_then_get_by_id {T} `{EntityLaws T}
    (self : JsonDataRepository T) (item : T) (w w' : world) :
  unique_ids w →
  get_id item ∈ ids_of (stored_records w) →
  update self item w = (Returned tt, w') →
  get_by_id (get_id item) w' = (Returned (Some item), w').
Proof.
  intros Hunique Hin Hrun.
  pose proof (update_unique _ _ _ _ Hrun Hunique) as Hunique'.
  unfold update in Hrun. rewrite bind_run, read_data_run in Hrun.
  destruct (list_find _ _) as [[i record]|] eqn:Hfind.
  - rewrite bind_run, print_run in Hrun.
    apply write_data_returned in Hrun as (data' & Hwritten & ->).
    apply list_find_Some in Hfind as (Hlookup & _).
    assert (_object_to_dict item ∈ data') as Hstored.
    { apply (written_object self _ _ item Hwritten).
      apply list_elem_of_lookup. exists i.
      apply list_lookup_insert_eq. by eapply lookup_lt_Some. }
    unfold unique_ids in Hunique'.
    unfold get_by_id. rewrite bind_run, read_data_run.
    change (stored_records (with_users_file _ data')) with data' in *.
    destruct (list_find_elem_of
                (λ record, py_get record "id" = get_id item) data'
                (_object_to_dict item) Hstored (py_get_dict_id item))
      as [[j found] Hfound].
    rewrite Hfound. apply list_find_Some in Hfound as (Hj & Hid & _).
    assert (found = _object_to_dict item) as ->.
    { apply (same_id_same_record data'); [done | | done |].
      - by eapply list_elem_of_lookup_2.
      - by rewrite py_get_dict_id. }
    rewrite bind_run. unfold lift. by rewrite class_of_dict.
  - exfalso. apply list_find_None in Hfind.
    apply list_elem_of_fmap in Hin as (record & Hid & Hrin).
    rewrite Forall_forall in Hfind. by apply (Hfind record).
Qed.

Lemma update_xenia_run :
  update user_repository_object xenia_3
    (world_of [User_dict maria; User_dict ivan])
  = (Returned tt, world_after_update).
Proof. vm_compute. reflexivity. Qed.

Lemma update_then_get_by_id_witness :
  update user_repository_object xenia_3
    (world_of [User_dict maria; User_dict ivan])
  = (Returned tt, world_after_update) ∧
  get_by_id (VInt 3) world_after_update
  = (Returned (Some xenia_3), world_after_update).
Proof.
  split; [exact update_xenia_run |].
  assert (Hunique : unique_ids (world_of [User_dict maria; User_dict ivan])).
  { apply (bool_decide_unpack _). vm_compute. exact I. }
  assert (Hin : get_id xenia_3
                ∈ ids_of (stored_records
                            (world_of [User_dict maria; User_dict ivan]))).
  { apply (bool_decide_unpack _). vm_compute. exact I. }
  exact (update_then_get_by_id user_repository_object xenia_3 _
           world_after_update Hunique Hin update_xenia_run).
Defined.

(** ** Lookup by login *)

Lemma reencode_login (item : record) (u : User) :
  User_init item = Returned u →
  py_get (User_dict u) "login" = py_get item "login".
Proof.
  intros Hu. apply User_init_returned in Hu as (_ & _ & Hlogin & _).
  unfold py_get at 2. rewrite Hlogin. unfold py_get, User_dict.
  by simplify_map_eq.
Qed.

Lemma written_users_append (self : UserRepository) data (u : User) data' :
  written self (data ++ [User_dict u]) data' →
  ∃ others, data' ≡ₚ others ++ [User_dict u] ∧
            logins_of others = logins_of data.
Proof.
  unfold written. destruct (sort_key self) as [key|].
  - intros (items & sorted_items & Hitems & Hsorted & ->).
    apply sorted_perm in Hsorted.
    apply map_outcome_Forall2 in Hitems.
    apply Forall2_app_inv_l in Hitems as (items0 & items1 & H0' & H1' & ->).
    inversion H1' as [|? y ? ? Hy Hnil]; subst. inversion Hnil; subst.
    change (data_class (User_dict u)) with (User_init (User_dict u)) in Hy.
    rewrite User_init_dict in Hy. inversion Hy; subst y.
    exists (User_dict <$> items0). split.
    + rewrite Hsorted. by rewrite fmap_app.
    + clear -H0'. unfold logins_of.
      induction H0' as [|item x data items Hx _ IH]; [done |].
      rewrite !fmap_cons. by rewrite (reencode_login _ _ Hx), IH.
  - intros ->. by exists data.
Qed.

(** X17.  When no stored record has the login of the user, an [add]
    that returns is read back by login: [get_by_login] returns the user
    as added. *)
Theorem add_then_get_by_login (self : UserRepository)
    (item item' : User) (w w' : world) :
  Forall (λ record, py_get record "login" ≠ login item) (stored_records w) →
  add self item w = (Returned item', w') →
  get_by_login self (login item) w' = (Returned (Some item'), w').
Proof.
  intros Hfresh Hrun.
  apply add_returned in Hrun as (Hid & _ & data' & Hwritten & Hfile).
  assert (login item' = login item) as Hlogin.
  { by destruct Hid as [(_ & -> & _) | (_ & n & -> & _)]. }
  apply written_users_append in Hwritten as (others & Hperm & Hlogins).
  assert (User_dict item' ∈ data') as Hin.
  { rewrite Hperm. apply elem_of_app. right. by left. }
  assert (py_get (User_dict item') "login" = login item) as Hmine.
  { rewrite <- Hlogin. unfold py_get, User_dict. by simplify_map_eq. }
  unfold get_by_login. rewrite bind_run, read_data_run.
  unfold stored_records at 1. rewrite Hfile.
  destruct (list_find_elem_of
              (λ record, py_get record "login" = login item) data'
              (User_dict item') Hin Hmine) as [[i found] Hfind].
  rewrite Hfind. apply list_find_Some in Hfind as (Hlookup & Hfound & _).
  assert (found = User_dict item') as ->.
  { apply list_elem_of_lookup_2 in Hlookup. rewrite Hperm in Hlookup.
    apply elem_of_app in Hlookup as [Hother | Hlast].
    - exfalso. rewrite Forall_forall in Hfresh.
      assert (login item ∈ logins_of (stored_records w)) as Hold.
      { rewrite <- Hlogins, <- Hfound. unfold logins_of.
        apply list_elem_of_fmap. eauto. }
      apply list_elem_of_fmap in Hold as (record & Heq & Hrin).
      by apply (Hfresh record).
    - by apply list_elem_of_singleton in Hlast. }
  rewrite bind_run. unfold lift. by rewrite User_init_dict.
Qed.

Lemma add_then_get_by_login_witness :
  get_by_login user_repository_object (VStr "masha") world_after_add
  = (Returned (Some maria_twin_4), world_after_add).
Proof.
  apply (add_then_get_by_login user_repository_object maria_twin
           maria_twin_4 (world_of [User_dict maria; User_dict ivan])).
  - repeat constructor; vm_compute; discriminate.
  - exact add_maria_twin_run.
Defined.

(** ** The authentication service *)

(** X18.  A [sign_in] that returns true has found a stored user with
    the login and the password given: that user is now the current
    user, the session file holds the user's id, and the repository file
    is as before. *)
Theorem sign_in_accepts_matching_credentials (self self' : FileAuthService)
    (login' password' : string) (w w' : world) :
  sign_in self login' password' w = (Returned (true, self'), w') →
  ∃ u, current_user self' = Some u ∧ is_authorized self' = true ∧
       login u = VStr login' ∧ password u = VStr password' ∧
       (∃ record, record ∈ stored_records w ∧ User_init record = Returned u) ∧
       user_repository self' = user_repository self ∧
       session_file w' = Holds {[ "user_id" := id u ]} ∧
       users_file w' = users_file w.
Proof.
  intros Hrun.
  apply sign_in_success in Hrun
    as (i & record & u & Hlookup & Hu & Hlogin & Hpw & -> & Hsession & Hfile).
  exists u. repeat split; try done.
  exists record. split; [by eapply list_elem_of_lookup_2 | done].
Qed.

Lemma sign_in_ivan_run :
  sign_in (service_of None) "ivan" "12345"
    (world_of [User_dict maria; User_dict ivan])
  = (Returned (true, service_of (Some ivan)),
     {| users_file := Holds [User_dict maria; User_dict ivan];
        session_file := Holds (session_of ivan);
        console := [MsgWelcome (VStr "Ivan Petrov")] |}).
Proof. vm_compute. reflexivity. Qed.

Lemma sign_in_accepts_matching_credentials_witness :
  ∃ u, current_user (service_of (Some ivan)) = Some u ∧
       login u = VStr "ivan".
Proof.
  destruct (sign_in_accepts_matching_credentials _ _ _ _ _ _ sign_in_ivan_run)
    as (u & Hcurrent & _ & Hlogin & _).
  exists u. split; [exact Hcurrent | exact Hlogin].
Defined.

(** X19.  A new service over the files a successful [sign_in] left
    restores the user signed in, provided no two stored records share
    an id and the id of the user is true in a condition (an integer
    other than 0, a string other than the empty one). *)
Theorem session_restored_by_new_service (self self' : FileAuthService)
    (login' password' : string) (w w' : world) :
  sign_in self login' password' w = (Returned (true, self'), w') →
  unique_ids w →
  (∀ u, current_user self' = Some u → truthy (id u) = true) →
  ∃ w'', FileAuthService_init (user_repository self) w'
         = (Returned self', w'') ∧
         users_file w'' = users_file w' ∧ session_file w'' = session_file w'.
Proof.
  intros Hrun Hunique Htruthy.
  apply sign_in_success in Hrun
    as (i & record & u & Hlookup & Hu & Hlogin & _ & -> & Hsession & Hfile).
  apply User_init_returned in Hu as Hfields.
  destruct Hfields as (Hid & _).
  assert (py_get record "id" = id u) as Hrid.
  { unfold py_get. by rewrite Hid. }
  pose proof (find_by_own_id _ _ _ Hunique Hlookup) as Hfind.
  rewrite Hrid in Hfind.
  assert (stored_records w' = stored_records w) as Hstored.
  { unfold stored_records. by rewrite Hfile. }
  rewrite <- Hstored in Hfind.
  destruct (load_session_restores (user_repository self) u i record w'
              Hsession (Htruthy u eq_refl) Hfind Hu) as (w'' & Hinit & Hfiles).
  exists w''. split; [| done]. by destruct self.
Qed.

Lemma session_restored_by_new_service_witness :
  ∃ w'', FileAuthService_init user_repository_object
           {| users_file := Holds [User_dict maria; User_dict ivan];
              session_file := Holds (session_of ivan);
              console := [MsgWelcome (VStr "Ivan Petrov")] |}
         = (Returned (service_of (Some ivan)), w'').
Proof.
  destruct (session_restored_by_new_service _ _ _ _ _ _ sign_in_ivan_run)
    as (w'' & Hinit & _).
  - apply (bool_decide_unpack _). vm_compute. exact I.
  - intros u [= <-]. reflexivity.
  - exists w''. exact Hinit.
Defined.

(** X20.  [sign_out] never raises.  It leaves the service anonymous
    and the session file absent, whatever they were; the repository
    file is untouched; and a service constructed afterwards is
    anonymous. *)
Theorem sign_out_always_anonymous (self : FileAuthService) (w : world) :
  ∃ self' w',
    sign_out self w = (Returned self', w') ∧
    is_authorized self' = false ∧
    session_file w' = Absent ∧
    users_file w' = users_file w ∧
    ∀ repo, ∃ fresh, FileAuthService_init repo w' = (Returned fresh, w') ∧
                     is_authorized fresh = false.
Proof.
  destruct (sign_out_anonymous self w) as (w' & Hrun & Habsent & Hinit).
  exists (set_current_user self None), w'.
  split; [done |]. split; [done |]. split; [done |]. split.
  - unfold sign_out in Hrun. rewrite bind_run in Hrun.
    assert (Hclear : ∀ w0 w1 o, _clear_session w0 = (o, w1) →
                       users_file w1 = users_file w0).
    { intros w0 w1 o. unfold _clear_session. rewrite bind_run.
      unfold get_session_file at 1.
      destruct (session_file w0); by intros [= _ <-]. }
    destruct (_current_user self) as [u|].
    + rewrite bind_run, print_run in Hrun.
      unfold mret at 1, M_ret at 1 in Hrun. rewrite bind_run in Hrun.
      destruct (_clear_session _) as [[[]|e] w1] eqn:Hc; [| discriminate].
      inversion Hrun; subst w1. by rewrite (Hclear _ _ _ Hc).
    + unfold mret at 1, M_ret at 1 in Hrun. rewrite bind_run in Hrun.
      destruct (_clear_session _) as [[[]|e] w1] eqn:Hc; [| discriminate].
      inversion Hrun; subst w1. by rewrite (Hclear _ _ _ Hc).
  - intros repo. eexists. split; [apply Hinit | done].
Qed.

(** X21.  Constructing a service never raises and writes to no file,
    whatever the session file holds (nothing, bytes that do not
    unpickle, any id) and whatever the repository file holds. *)
Theorem service_init_never_raises (repo : UserRepository) (w : world) :
  ∃ self w',
    FileAuthService_init repo w = (Returned self, w') ∧
    user_repository self = repo ∧
    users_file w' = users_file w ∧
    session_file w' = session_file w.
Proof.
  unfold FileAuthService_init, _load_session, try_except.
  rewrite bind_run. unfold get_session_file at 1.
  destruct (session_file w) as [| |session_data] eqn:Hsession.
  - eexists _, _. split; [reflexivity |]. by rewrite Hsession.
  - unfold raise. rewrite bind_run, print_run.
    eexists _, _. split; [reflexivity |]. by rewrite Hsession.
  - cbv zeta. destruct (truthy _).
    + rewrite bind_run. unfold get_by_id.
      rewrite bind_run, read_data_run.
      destruct (list_find _ _) as [[i record]|].
      * rewrite bind_run. unfold lift at 1.
        destruct (data_class record) as [u|e].
        -- unfold mret at 1, M_ret at 1. rewrite bind_run, print_run.
           eexists _, _. split; [reflexivity |]. by rewrite Hsession.
        -- rewrite bind_run, print_run.
           eexists _, _. split; [reflexivity |]. by rewrite Hsession.
      * unfold mret at 1, M_ret at 1.
        eexists _, _. split; [reflexivity |]. by rewrite Hsession.
    + eexists _, _. split; [reflexivity |]. by rewrite Hsession.
Qed.

(** X22.  A session file whose id no stored record has is a stale
    session: the service constructed is anonymous, nothing is printed
    and the session file is left in place. *)
Theorem stale_session_is_anonymous (repo : UserRepository) (w : world)
    (session_data : record) :
  session_file w = Holds session_data →
  Forall (λ record, py_get record "id" ≠ py_get session_data "user_id")
    (stored_records w) →
  FileAuthService_init repo w
  = (Returned {| user_repository := repo; _current_user := None |}, w).
Proof.
  intros Hsession Hstale.
  unfold FileAuthService_init, _load_session, try_except.
  rewrite bind_run. unfold get_session_file at 1. rewrite Hsession.
  cbv zeta. destruct (truthy _); [| done].
  rewrite bind_run. unfold get_by_id. rewrite bind_run, read_data_run.
  by rewrite (list_find_key_None _ _ _ Hstale).
Qed.

Lemma stale_session_is_anonymous_witness :
  FileAuthService_init user_repository_object
    (signed_in_world [User_dict maria] ivan)
  = (Returned (service_of None), signed_in_world [User_dict maria] ivan).
Proof.
  apply (stale_session_is_anonymous user_repository_object
           (signed_in_world [User_dict maria] ivan) (session_of ivan)).
  - reflexivity.
  - repeat constructor; vm_compute; discriminate.
Defined.

(** ** Validation of e-mail addresses and logins *)

Lemma contains_app c s t : contains c (s ++ t) = contains c s || contains c t.
Proof.
  induction s as [|a s IH]; simpl; [done |]. rewrite IH.
  by rewrite orb_assoc.
Qed.

Lemma split_without sep s : contains sep s = false → split sep s = [s].
Proof.
  induction s as [|c s IH]; simpl; [done |].
  destruct (Ascii.eqb c sep); simpl; [done |].
  intros Hno. by rewrite (IH Hno).
Qed.

Lemma split_with sep s :
  contains sep s = true → ∃ p q parts, split sep s = p :: q :: parts.
Proof.
  induction s as [|c s IH]; simpl; [done |].
  destruct (Ascii.eqb c sep); simpl.
  - intros _. destruct (contains sep s) eqn:Hs.
    + destruct (IH eq_refl) as (p & q & parts & ->). eauto.
    + rewrite (split_without _ _ Hs). eauto.
  - intros Hs. destruct (IH Hs) as (p & q & parts & ->). eauto.
Qed.

(** The last part of a split is what follows the last separator. *)
Lemma split_last_part sep s :
  (contains sep s = false ∧ last_part (split sep s) = s) ∨
  (∃ a b, s = a ++ String sep b ∧ contains sep b = false ∧
          last_part (split sep s) = b).
Proof.
  destruct (contains sep s) eqn:Hs.
  2: { left. split; [done |]. by rewrite (split_without _ _ Hs). }
  right. induction s as [|c s IH]; [done |].
  simpl in Hs. simpl split.
  destruct (Ascii.eqb_spec c sep) as [-> | Hne]; simpl in Hs.
  - destruct (contains sep s) eqn:Hrest.
    + destruct (IH eq_refl) as (a & b & -> & Hb & Hlast).
      exists (String sep a), b. split; [done |]. split; [done |].
      destruct (split_with sep (a ++ String sep b)) as (p & q & parts & Heq).
      { rewrite contains_app. simpl. rewrite Ascii.eqb_refl.
        by rewrite orb_true_r. }
      by rewrite Heq in Hlast |- *.
    + exists "", s. split; [done |]. split; [done |].
      by rewrite (split_without _ _ Hrest).
  - destruct (IH Hs) as (a & b & -> & Hb & Hlast).
    exists (String c a), b. split; [done |]. split; [done |].
    destruct (split_with sep (a ++ String sep b)) as (p & q & parts & Heq).
    { rewrite contains_app. simpl. rewrite Ascii.eqb_refl.
      by rewrite orb_true_r. }
    by rewrite Heq in Hlast |- *.
Qed.

(** X23.  [validate_email] accepts [None] and the empty string, and
    otherwise exactly the strings with an at sign in which a dot
    follows the last at sign. *)
Theorem validate_email_accepts (email : option string) :
  validate_email email = true ↔
  email = None ∨ email = Some "" ∨
  ∃ a b, email = Some (a ++ String "@"%char b) ∧
         contains "@"%char b = false ∧ contains "."%char b = true.
Proof.
  destruct email as [[|c s]|]; [by split; auto | | by split; auto].
  unfold validate_email.
  destruct (split_last_part "@"%char (String c s))
    as [[Hno Hlast] | (a & b & Hs & Hb & Hlast)].
  - rewrite Hno. simpl. split; [done |].
    intros [? | [? | (a & b & [= Heq] & _)]]; try done.
    rewrite Heq, contains_app in Hno. simpl in Hno.
    by rewrite orb_true_r in Hno.
  - rewrite Hlast. rewrite Hs at 1. rewrite contains_app. simpl.
    rewrite orb_true_r. simpl. split.
    + intros Hdot. right. right. exists a, b. by rewrite Hs.
    + intros [? | [? | (a' & b' & [= Heq] & Hb' & Hdot)]]; try done.
      assert (b' = b) as ->; [| done].
      rewrite Hs in Heq. clear -Heq Hb Hb'.
      revert a' Heq. induction a as [|x a IH]; intros [|y a'] Heq;
        simpl in Heq.
      * by inversion Heq.
      * inversion Heq; subst. rewrite contains_app in Hb. simpl in Hb.
        by rewrite orb_true_r in Hb.
      * inversion Heq; subst. rewrite contains_app in Hb'. simpl in Hb'.
        by rewrite orb_true_r in Hb'.
      * inversion Heq. by eapply IH.
Qed.

(** X24.  [validate_login] accepts exactly the logins of three
    characters or more that are not in the list given (the test for an
    empty login changes the message only), and it returns the empty
    message exactly when it accepts. *)
Theorem validate_login_accepts (login' : string) (existing_logins : list string) :
  ((validate_login login' existing_logins).1 = true ↔
   (3 ≤ py_len login')%nat ∧ login' ∉ existing_logins) ∧
  ((validate_login login' existing_logins).2 = "" ↔
   (validate_login login' existing_logins).1 = true).
Proof.
  unfold validate_login.
  destruct (decide (login' = "")) as [-> | Hne]; simpl.
  - split; split; try done. intros [Hlen _]. lia.
  - destruct (Nat.ltb_spec (py_len login') 3) as [Hshort | Hlong]; simpl.
    + split; split; try done. intros [Hlen _]. lia.
    + destruct (decide (login' ∈ existing_logins)); simpl.
      * split; split; try done. by intros [_ ?].
      * by split; split.
Qed.

(** ** The sorted list of users *)

Section SortedByFacts.
Context {T : Type} (lt : T → T → outcome bool).
Hypothesis lt_asym : ∀ x y, lt x y = Returned true → lt y x = Returned false.

Lemma insert_sorted_by_perm x l l' :
  insert_sorted_by lt x l = Returned l' → l' ≡ₚ x :: l.
Proof.
  revert l'. induction l as [|y l IH]; intros l' Hrun; simpl in Hrun.
  - by inversion Hrun.
  - apply outcome_bind_returned in Hrun as (b & _ & Hrun). destruct b.
    + apply outcome_bind_returned in Hrun as (r & Hr & [= <-]).
      rewrite (IH _ Hr). apply Permutation_swap.
    + by inversion Hrun.
Qed.

Lemma insert_sorted_by_Sorted x l l' :
  insert_sorted_by lt x l = Returned l' →
  Sorted (λ a b, lt b a = Returned false) l →
  Sorted (λ a b, lt b a = Returned false) l'.
Proof.
  revert l'. induction l as [|y l IH]; simpl; intros l' Hrun Hsorted.
  - inversion Hrun. by repeat constructor.
  - apply outcome_bind_returned in Hrun as (b & Hlt & Hrun).
    apply Sorted_inv in Hsorted as [Hsorted Hhd]. destruct b.
    + apply outcome_bind_returned in Hrun as (r & Hr & [= <-]).
      constructor; [by apply IH |].
      destruct l as [|z l]; simpl in Hr.
      * inversion Hr. constructor. by apply lt_asym.
      * apply outcome_bind_returned in Hr as (b & _ & Hr). destruct b.
        -- apply outcome_bind_returned in Hr as (r' & _ & [= <-]).
           constructor. by inversion Hhd.
        -- inversion Hr. constructor. by apply lt_asym.
    + inversion Hrun. constructor; [by constructor |]. by constructor.
Qed.

Lemma sorted_by_perm_Sorted l l' :
  sorted_by lt l = Returned l' →
  l' ≡ₚ l ∧ Sorted (λ a b, lt b a = Returned false) l'.
Proof.
  revert l'. induction l as [|x l IH]; simpl; intros l' Hrun.
  - inversion Hrun. split; [done | constructor].
  - apply outcome_bind_returned in Hrun as (s & Hs & Hrun).
    destruct (IH _ Hs) as [Hperm Hsorted]. split.
    + rewrite (insert_sorted_by_perm _ _ _ Hrun). by rewrite Hperm.
    + by eapply insert_sorted_by_Sorted.
Qed.
End SortedByFacts.

Lemma Sorted_weaken {A} (R R' : relation A) l :
  (∀ x y, R x y → R' x y) → Sorted R l → Sorted R' l.
Proof.
  intros Himpl. induction 1 as [|x l _ IH Hhd]; constructor; [done |].
  destruct Hhd; constructor. by apply Himpl.
Qed.

Lemma tuple_lt_asym a b :
  tuple_lt a b = Returned true → tuple_lt b a = Returned false.
Proof.
  revert b. induction a as [|x a IH]; intros [|y b]; simpl; try done.
  destruct (decide (x = y)) as [-> | Hne].
  - rewrite decide_True by done. apply IH.
  - rewrite decide_False by congruence. apply py_lt_asym.
Qed.

(** X25.  [UserRepository.get_all] writes nothing, whatever its
    outcome.  When it returns, it returns the users the stored records
    decode to, in the order of their names: of two neighbours the
    second has the same name or a name that does not compare less. *)
Theorem user_get_all_sorted_by_name (self : UserRepository) (w : world) :
  (∀ o w', User_get_all self w = (o, w') → w' = w) ∧
  (∀ users w', User_get_all self w = (Returned users, w') →
     (∃ decoded, map_outcome User_init (stored_records w) = Returned decoded ∧
                 users ≡ₚ decoded) ∧
     Sorted name_order users).
Proof.
  unfold User_get_all, get_all.
  rewrite !bind_run, read_data_run. unfold lift at 1.
  change (data_class (T := User)) with User_init.
  destruct (map_outcome User_init (stored_records w)) as [decoded|].
  - unfold lift. split; [by intros o w' [= _ <-] |].
    intros users w' [= Hsorted <-].
    destruct (sorted_by_perm_Sorted User_lt
                (λ u v, tuple_lt_asym _ _) _ _ Hsorted) as [Hperm Hord].
    split; [by exists decoded |].
    eapply Sorted_weaken; [| exact Hord]. clear.
    intros u v. unfold User_lt, compared_fields, name_order. simpl.
    destruct (decide (name v = name u)) as [Heq | Hne]; [by left |].
    intros Hlt. by right.
  - split; [by intros o w' [= _ <-] | discriminate].
Qed.

Lemma user_get_all_sorted_by_name_witness :
  User_get_all user_repository_object
    (world_of [User_dict maria; User_dict ivan])
  = (Returned [ivan; maria], world_of [User_dict maria; User_dict ivan]) ∧
  Sorted name_order [ivan; maria].
Proof.
  assert (Hrun : User_get_all user_repository_object
                   (world_of [User_dict maria; User_dict ivan])
                 = (Returned [ivan; maria],
                    world_of [User_dict maria; User_dict ivan]))
    by (vm_compute; reflexivity).
  split; [exact Hrun |].
  exact (proj2 (proj2 (user_get_all_sorted_by_name user_repository_object _)
                  _ _ Hrun)).
Defined.

(** ** Update and lookup of users *)

(** X26.  When no two stored records share an id and some record has
    the id of the user, a [UserRepository.update] that returns leaves
    the caller's object as it was and is read back: [get_by_id] with
    that id returns the user as updated. *)
Theorem user_update_then_get_by_id (self : UserRepository)
    (item item' : User) (w w' : world) :
  unique_ids w →
  id item ∈ ids_of (stored_records w) →
  User_update self item w = (Returned item', w') →
  item' = item ∧
  get_by_id (id item) w' = (Returned (Some item), w').
Proof.
  intros Hunique Hin Hrun.
  pose proof (user_update_unique _ _ _ _ _ Hrun Hunique) as Hunique'.
  unfold User_update in Hrun. rewrite bind_run, read_data_run in Hrun.
  destruct (list_find (λ record, py_get record "id" = id item) _)
    as [[i record]|] eqn:Hfind.
  - rewrite bind_run, print_run, bind_run in Hrun.
    destruct (_write_data _ _ _) as [[[]|e] w1] eqn:Hwrite; [| discriminate].
    inversion Hrun; subst item' w1; clear Hrun. split; [done |].
    apply write_data_returned in Hwrite as (data' & Hwritten & ->).
    apply list_find_Some in Hfind as (Hlookup & _).
    assert (User_dict item ∈ data') as Hstored.
    { apply (written_object self _ _ item Hwritten).
      apply list_elem_of_lookup. exists i.
      apply list_lookup_insert_eq. by eapply lookup_lt_Some. }
    unfold unique_ids in Hunique'.
    unfold get_by_id. rewrite bind_run, read_data_run.
    change (stored_records (with_users_file _ data')) with data' in *.
    assert (py_get (User_dict item) "id" = id item) as Hmine.
    { unfold py_get, User_dict. by simplify_map_eq. }
    destruct (list_find_elem_of
                (λ record, py_get record "id" = id item) data'
                (User_dict item) Hstored Hmine) as [[j found] Hfound].
    rewrite Hfound. apply list_find_Some in Hfound as (Hj & Hid & _).
    assert (found = User_dict item) as ->.
    { apply (same_id_same_record data'); [done | | done |].
      - by eapply list_elem_of_lookup_2.
      - by rewrite Hmine. }
    rewrite bind_run. unfold lift.
    change (data_class (User_dict item)) with (User_init (User_dict item)).
    by rewrite User_init_dict.
  - exfalso. apply list_find_None in Hfind.
    apply list_elem_of_fmap in Hin as (record & Hid & Hrin).
    rewrite Forall_forall in Hfind. by apply (Hfind record).
Qed.

Lemma user_update_xenia_run :
  User_update user_repository_object xenia_3
    (world_of [User_dict maria; User_dict ivan])
  = (Returned xenia_3, world_after_user_update).
Proof. vm_compute. reflexivity. Qed.

Lemma user_update_then_get_by_id_witness :
  get_by_id (VInt 3) world_after_user_update
  = (Returned (Some xenia_3), world_after_user_update).
Proof.
  assert (Hunique : unique_ids (world_of [User_dict maria; User_dict ivan])).
  { apply (bool_decide_unpack _). vm_compute. exact I. }
  assert (Hin : id xenia_3
                ∈ ids_of (stored_records
                            (world_of [User_dict maria; User_dict ivan]))).
  { apply (bool_decide_unpack _). vm_compute. exact I. }
  exact (proj2 (user_update_then_get_by_id user_repository_object xenia_3
                  xenia_3 _ world_after_user_update Hunique Hin
                  user_update_xenia_run)).
Defined.

(** X27.  [get_by_login] never changes the world.  It returns [None]
    when no stored record has the login, and a user it returns is the
    decoding of a stored record and has the login asked for. *)
Theorem get_by_login_returns_requested_login (self : UserRepository)
    (login' : value) (w : world) :
  (Forall (λ record, py_get record "login" ≠ login') (stored_records w) →
   get_by_login self login' w = (Returned None, w)) ∧
  (∀ o w', get_by_login self login' w = (o, w') →
     w' = w ∧
     ∀ u, o = Returned (Some u) →
          login u = login' ∧
          ∃ record, record ∈ stored_records w ∧ User_init record = Returned u).
Proof.
  unfold get_by_login. rewrite bind_run, read_data_run. split.
  - intros Hnone. by rewrite (list_find_key_None _ _ _ Hnone).
  - intros o w'. destruct (list_find _ _) as [[i record]|] eqn:Hfind.
    + rewrite bind_run. unfold lift at 1.
      apply list_find_Some in Hfind as (Hlookup & Hlogin & _).
      destruct (User_init record) as [u|e] eqn:Hu.
      * intros [= <- <-]. split; [done |]. intros v [= <-].
        split.
        -- apply User_init_returned in Hu as (_ & _ & Hl & _).
           unfold py_get in Hlogin. by rewrite Hl in Hlogin.
        -- exists record. split; [by eapply list_elem_of_lookup_2 | done].
      * intros [= <- <-]. split; [done |]. discriminate.
    + intros [= <- <-]. split; [done |]. discriminate.
Qed.

Lemma get_by_login_returns_requested_login_witness :
  get_by_login user_repository_object (VStr "nobody")
    (world_of [User_dict maria; User_dict ivan])
  = (Returned None, world_of [User_dict maria; User_dict ivan]).
Proof.
  apply (proj1 (get_by_login_returns_requested_login user_repository_object
                  (VStr "nobody")
                  (world_of [User_dict maria; User_dict ivan]))).
  repeat constructor; vm_compute; discriminate.
Defined.

(** ** Stores of users *)

Lemma py_max_from_ints b vs :
  Forall (λ v, ∃ n, v = VInt n) vs →
  ∃ k, py_max_from (VInt b) vs = Returned (VInt k).
Proof.
  revert b. induction vs as [|v vs IH]; intros b Hall; simpl; [eauto |].
  apply Forall_cons in Hall as [[n ->] Hall]. simpl.
  destruct (b <? n); by apply IH.
Qed.

Lemma py_max_ints vs :
  Forall (λ v, ∃ n, v = VInt n) vs → ∃ k, py_max vs = Returned (VInt k).
Proof.
  destruct vs as [|v vs]; [by exists 0 |].
  intros Hall. apply Forall_cons in Hall as [[n ->] Hall]. simpl.
  by apply py_max_from_ints.
Qed.

Lemma user_records_filter (P : record → Prop) `{∀ r, Decision (P r)} data :
  user_records data → user_records (filter P data).
Proof.
  unfold user_records. intros Hall. apply Forall_forall.
  intros record Hin. apply list_elem_of_filter in Hin as [_ Hin].
  rewrite Forall_forall in Hall. by apply Hall.
Qed.

(** X28.  On a file whose records are users with string names and
    integer ids, [add] of a user whose name is a string returns, and
    [delete] raises nothing but the [ValueError] of an id that no
    record has, which leaves the world as it was. *)
Theorem user_store_operations_return (item : User) (w : world) :
  user_records (stored_records w) →
  integer_ids (stored_records w) →
  ((∃ s, name item = VStr s) →
   ∃ item' w', add user_repository_object item w = (Returned item', w')) ∧
  ((∃ w', delete user_repository_object item w = (Returned tt, w')) ∨
   (delete user_repository_object item w = (Raised ValueError, w) ∧
    Forall (λ record, py_get record "id" ≠ id item) (stored_records w))).
Proof.
  intros Husers Hints. split.
  - intros [s Hname]. unfold add. rewrite bind_run, read_data_run, bind_run.
    assert (Hwrite : ∀ (u : User) w0, name u = VStr s →
              ∃ w1, _write_data user_repository_object
                      (stored_records w ++ [_object_to_dict u]) w0
                    = (Returned tt, w1)).
    { intros u w0 Hu. apply write_user_records.
      apply Forall_app. split; [done |]. constructor; [| constructor].
      exists u, s. split; [apply User_init_dict | done]. }
    destruct (decide (get_id item ∈ existing_ids (stored_records w))).
    + rewrite bind_run. unfold lift at 1.
      destruct (py_max_ints (elements (existing_ids (stored_records w))))
        as [k ->].
      { apply Forall_forall. intros v Hv. apply elem_of_elements in Hv.
        unfold existing_ids in Hv. apply elem_of_list_to_set in Hv.
        unfold integer_ids in Hints. rewrite Forall_forall in Hints.
        by apply Hints. }
      rewrite bind_run. unfold lift at 1. simpl py_succ. lazy beta iota.
      rewrite bind_run, print_run. unfold mret at 1, M_ret at 1.
      rewrite bind_run. change (@set_id User User_entity) with User_set_id.
      destruct (Hwrite (User_set_id (VInt (k + 1)) item)
                  {| users_file := users_file w;
                     session_file := session_file w;
                     console := (console w ++
                       [MsgIdExists (get_id item) (VInt (k + 1))])%list |}
                  Hname) as [w1 ->].
      by eexists _, _.
    + unfold mret at 1, M_ret at 1. rewrite bind_run.
      destruct (Hwrite item w Hname) as [w1 ->]. by eexists _, _.
  - unfold delete. rewrite bind_run, read_data_run.
    case_decide as Hlen.
    + right. split; [done |].
      apply Forall_forall. intros record Hin Hid.
      pose proof (length_filter_lt
                    (λ record, py_get record "id" ≠ get_id item)
                    (stored_records w) record Hin) as Hlt.
      assert (¬ py_get record "id" ≠ get_id item) as Hnot.
      { intros Hne. by apply Hne. }
      specialize (Hlt Hnot). rewrite Hlen in Hlt. lia.
    + left. apply write_user_records. by apply user_records_filter.
Qed.

Lemma user_store_operations_return_witness :
  ∃ item' w', add user_repository_object maria_twin
                (world_of [User_dict maria; User_dict ivan])
              = (Returned item', w').
Proof.
  apply (user_store_operations_return maria_twin
           (world_of [User_dict maria; User_dict ivan])).
  - repeat constructor.
    + exists maria, "Maria Sidorova". split; [apply User_init_dict | done].
    + exists ivan, "Ivan Petrov". split; [apply User_init_dict | done].
  - repeat constructor; eexists; vm_compute; reflexivity.
  - by exists "Maria Ivanova".
Defined.

(** ** Examples of the characterisations *)


Lemma validate_email_accepts_witness :
  validate_email (Some "ivan@mail.com") = true.
Proof.
  apply (validate_email_accepts (Some "ivan@mail.com")).
  right. right. by exists "ivan", "mail.com".
Defined.

Lemma validate_login_accepts_witness :
  (validate_login "ivan" ["maria"; "alex"]).1 = true.
Proof.
  apply (proj1 (validate_login_accepts "ivan" ["maria"; "alex"])).
  split; [vm_compute; lia |].
  intros Hin. repeat (apply elem_of_cons in Hin as [Hin | Hin];
                      [discriminate |]).
  by apply elem_of_nil in Hin.
Defined.
